(** * videojs-hls-quality-selector: the quality selector of [src/plugin.js]

    A shallow embedding of the plugin class [HlsQualitySelectorPlugin]:
    identifier derivation and formatting ([getIdentifierFromLevel]), menu
    reconciliation ([onAddQualityLevel]), selection ([setQuality]) and the
    constructor's handling of the module-level [defaults] object.

    JavaScript values are restricted to the primitives the plugin handles:
    [undefined], [null], booleans, integers and strings.  Numbers held by
    levels and options are integers (heights and bitrates are); fractions
    only arise inside the bitrate scaling loop and are kept as exact
    rationals, so the rounding of IEEE doubles, [NaN] and infinities as
    stored attributes, and the exponent notation of integers from 1e21 on
    are outside the model.  Objects are finite maps from property names to
    primitives.  [Array.prototype.sort] is the sort of V8, whose order
    matters where the comparator is not a consistent ordering. *)

From stdpp Require Import gmap strings list fin_maps pretty sorting.
From Stdlib Require Import ZArith QArith Qround Lia.

Local Open Scope Z_scope.

(** ** JavaScript values *)

Inductive val : Type :=
  | VUndefined
  | VNull
  | VBool (b : bool)
  | VNum (n : Z)
  | VStr (s : string).

#[global] Instance val_eq_dec : EqDecision val.
Proof. solve_decision. Defined.

(** The result of an arithmetic conversion: [NaN] or a finite number. *)
Inductive number : Type :=
  | NaN
  | Fin (q : Q).

(** A plain object: own properties by name.  A missing property reads as
    [undefined]. *)
Abbreviation obj := (gmap string val).

Definition get (o : obj) (key : string) : val :=
  default VUndefined (o !! key).

(** [ToString], used by string concatenation and by computed property
    keys. *)
Definition ToString (v : val) : string :=
  match v with
  | VUndefined => "undefined"
  | VNull => "null"
  | VBool true => "true"
  | VBool false => "false"
  | VNum n => pretty n
  | VStr s => s
  end.

(** [ToBoolean]: the falsy values are [undefined], [null], [false], [0]
    and the empty string. *)
Definition ToBoolean (v : val) : bool :=
  match v with
  | VUndefined | VNull => false
  | VBool b => b
  | VNum n => negb (n =? 0)
  | VStr s => negb (String.eqb s "")
  end.

(** [a || b] *)
Definition js_or (a b : val) : val :=
  if ToBoolean a then a else b.

(** [a === b]: on these primitives strict equality is equality of type and
    of content. *)
Definition strict_eq (a b : val) : bool := bool_decide (a = b).

(** [typeof] *)
Definition typeof (v : val) : string :=
  match v with
  | VUndefined => "undefined"
  | VNull => "object"
  | VBool _ => "boolean"
  | VNum _ => "number"
  | VStr _ => "string"
  end.

(** Exceptions.  The only one the plugin can raise is the [TypeError] of a
    property access on [undefined] or [null], or of a call of something
    that is not a function. *)
Inductive error : Type := TypeError.

Inductive result (A : Type) : Type :=
  | Ok (a : A)
  | Throw (e : error).
Arguments Ok {A} a.
Arguments Throw {A} e.

Definition bind {A B : Type} (r : result A) (k : A → result B) : result B :=
  match r with
  | Ok a => k a
  | Throw e => Throw e
  end.

Notation "x ←! r ; k" := (bind r (λ x, k))
  (at level 20, r at level 100, k at level 200, only parsing).

(** ** Numbers *)

Definition Qlt_bool (p q : Q) : bool := negb (Qle_bool q p).

(** [Math.floor] of a number: an integer, or [None] for [NaN]. *)
Definition Math_floor (x : number) : option Z :=
  match x with
  | NaN => None
  | Fin q => Some (Qfloor q)
  end.

(** [Math.floor(x) > 1e3]; a comparison with [NaN] is false. *)
Definition floor_gt_1e3 (x : number) : bool :=
  match Math_floor x with
  | None => false
  | Some z => 1000 <? z
  end.

(** [x / 1e3] *)
Definition div_1e3 (x : number) : number :=
  match x with
  | NaN => NaN
  | Fin q => Fin (q / 1000)
  end.

(** [ToString] of the result of [Math.floor]. *)
Definition floor_ToString (x : number) : string :=
  match Math_floor x with
  | None => "NaN"
  | Some z => pretty z
  end.

(** The runtime's conversion of a string to a number (StringToNumber); the
    development is parametric in it. *)
Class Runtime : Type := {
  StringToNumber : string → number
}.

Section Selector.
Context `{Runtime}.

Definition ToNumber (v : val) : number :=
  match v with
  | VUndefined => NaN
  | VNull => Fin 0
  | VBool true => Fin 1
  | VBool false => Fin 0
  | VNum n => Fin (inject_Z n)
  | VStr s => StringToNumber s
  end.

(** [a < b] (IsLessThan): two strings are compared by code units, anything
    else after [ToNumber]; a comparison with [NaN] is false. *)
Definition js_lt (a b : val) : bool :=
  match a, b with
  | VStr s, VStr t => String.ltb s t
  | _, _ =>
      match ToNumber a, ToNumber b with
      | Fin p, Fin q => Qlt_bool p q
      | _, _ => false
      end
  end.

(** [a > b] *)
Definition js_gt (a b : val) : bool := js_lt b a.

(** ** Identifier derivation and formatting *)

Definition mags : list string := ["" ; "k" ; "M" ; "G" ; "T"]%string.

(** The loop
    [while (Math.floor(value) > 1e3 && mag < mags.length)
       { value = value / 1e3; mag++; }]
    on the pair [(value, mag)].  [Math.floor] and [/] convert their operand
    with [ToNumber], so the loop runs on [ToNumber value]. *)
Fixpoint scale (fuel : nat) (value : number) (mag : nat) : number * nat :=
  match fuel with
  | O => (value, mag)
  | S fuel' =>
      if floor_gt_1e3 value && bool_decide (mag < length mags)%nat
      then scale fuel' (div_1e3 value) (S mag)
      else (value, mag)
  end.

(** [mag] never passes [mags.length], so this many turns end the loop
    ([scale_exit] below). *)
Definition scale_fuel : nat := S (length mags).

(** [Math.floor(value) + mags[mag] + 'bps'].  When [mag] is past the end of
    [mags] the middle operand is [undefined], the first [+] is a numeric
    addition and gives [NaN]. *)
Definition bitrate_label (value : number) (mag : nat) : string :=
  match mags !! mag with
  | Some m => floor_ToString value +:+ m +:+ "bps"
  | None => "NaN" +:+ "bps"
  end.

Definition format_bitrate (v : val) : string :=
  let '(value, mag) := scale scale_fuel (ToNumber v) 0 in
  bitrate_label value mag.

(** [getIdentifierFromLevel(level, format)], with [this._options] as first
    argument.  [level[k]] converts the key [k] with [ToString]. *)
Definition getIdentifierFromLevel (_options : obj) (level : obj)
    (format : bool) : val :=
  let identifyBy := get _options "identifyBy" in
  let value := js_or (get level (ToString identifyBy)) (get level "height") in
  if format then
    if strict_eq identifyBy (VStr "bitrate") then
      VStr (format_bitrate value)
    else if strict_eq identifyBy (VStr "height") then
      VStr (ToString value +:+ "p")
    else value
  else value.

(** ** Menu items *)

(** The descriptor literal [{label, value, selected}] handed to
    [getQualityMenuItem]; [selected] is only set on the Auto entry. *)
Record MenuItemDescriptor : Type := {
  label : val;
  value : val;
  selected : option bool
}.

(** Modelled from the spec: [ConcreteMenuItem] (module [./ConcreteMenuItem],
    not among the sources).  The menu item built for a descriptor keeps it
    as its [item] property, which is what [onAddQualityLevel] reads back
    ([_existingItem.item.value], [current.item.value]). *)
Record ConcreteMenuItem : Type := {
  item : MenuItemDescriptor
}.

(** Modelled from the spec: [ConcreteButton] (module [./ConcreteButton], not
    among the sources): the menu button, with the item list its
    [createItems] returns and its pressed state, which [unpressButton]
    resets. *)
Record ConcreteButton : Type := {
  createItems : list ConcreteMenuItem;
  pressed : bool
}.

Definition unpressButton (b : ConcreteButton) : ConcreteButton :=
  {| createItems := createItems b; pressed := false |}.

(** [update()], which the button inherits from the menu button of video.js:
    the menu is rebuilt from [createItems] and the button is left
    unpressed. *)
Definition update (b : ConcreteButton) : ConcreteButton :=
  {| createItems := createItems b; pressed := false |}.

(** [getQualityMenuItem(item)] *)
Definition getQualityMenuItem (i : MenuItemDescriptor) : ConcreteMenuItem :=
  {| item := i |}.

(** What the sort comparator may be handed: a primitive, or an object with
    or without an [item] property (a descriptor when present). *)
Inductive entry : Type :=
  | Primitive (v : val)
  | Object (i : option MenuItemDescriptor).

Definition entry_typeof (e : entry) : string :=
  match e with
  | Primitive v => typeof v
  | Object _ => "object"
  end.

(** [e.item]: a [TypeError] on [undefined] and [null]. *)
Definition get_item (e : entry) : result (option MenuItemDescriptor) :=
  match e with
  | Primitive VUndefined | Primitive VNull => Throw TypeError
  | Primitive _ => Ok None
  | Object i => Ok i
  end.

(** [i.value], for [i] the result of [e.item]: a [TypeError] when the
    property [item] was missing. *)
Definition get_value (i : option MenuItemDescriptor) : result val :=
  match i with
  | None => Throw TypeError
  | Some d => Ok (value d)
  end.

(** The comparator passed to [levelItems.sort]. *)
Definition comparator (current next : entry) : result Z :=
  if negb (String.eqb (entry_typeof current) "object")
     || negb (String.eqb (entry_typeof next) "object")
  then Ok (-1)
  else
    cv ←! (i ←! get_item current; get_value i);
    nv ←! (i ←! get_item next; get_value i);
    if js_lt cv nv then Ok (-1)
    else if js_gt cv nv then Ok 1
    else Ok 0.

(** [Array.prototype.sort(comparefn)], as V8 computes it on an array of
    fewer than 64 elements (its [CountAndMakeRun] and [BinaryInsertionSort]):
    the run the array starts with is counted, and reversed when it descends,
    then each further element is placed by a binary search.  From 64
    elements on V8 sorts such runs and merges them, which gives the same
    array whenever the comparator is a consistent ordering of the elements.
    An exception of the comparator ends the sort. *)
Section ArraySort.
Context {A : Type} (comparefn : A → A → result Z).

(** The scan of [CountAndMakeRun] after the first two elements: the
    elements that continue the run, and what is left of the array. *)
Fixpoint run_extend (isDescending : bool) (previousElement : A) (l : list A)
    : result (list A * list A) :=
  match l with
  | [] => Ok ([], [])
  | currentElement :: l' =>
      order ←! comparefn currentElement previousElement;
      if (if isDescending then 0 <=? order else order <? 0) then Ok ([], l)
      else
        r ←! run_extend isDescending currentElement l';
        Ok (currentElement :: r.1, r.2)
  end.

(** [CountAndMakeRun]: the run, ascending, and the rest of the array. *)
Definition CountAndMakeRun (l : list A) : result (list A * list A) :=
  match l with
  | elementHigh :: elementLow :: l' =>
      order ←! comparefn elementLow elementHigh;
      let isDescending := order <? 0 in
      r ←! run_extend isDescending elementLow l';
      let run := elementHigh :: elementLow :: r.1 in
      Ok (if isDescending then reverse run else run, r.2)
  | _ => Ok (l, [])
  end.

(** The search [while (left < right)] of [BinaryInsertionSort] for the
    place of [pivot] in the sorted part; the interval shrinks at every
    turn, so its length is fuel enough. *)
Fixpoint insertion_point (fuel : nat) (pivot : A) (sorted : list A)
    (left right : nat) : result nat :=
  match fuel with
  | O => Ok left
  | S fuel' =>
      if bool_decide (left < right)%nat then
        let mid := (left + (right - left) / 2)%nat in
        match sorted !! mid with
        | Some x =>
            order ←! comparefn pivot x;
            if order <? 0 then insertion_point fuel' pivot sorted left mid
            else insertion_point fuel' pivot sorted (S mid) right
        | None => Ok left
        end
      else Ok left
  end.

Definition binary_insert (sorted : list A) (pivot : A) : result (list A) :=
  left ←! insertion_point (length sorted) pivot sorted 0 (length sorted);
  Ok (take left sorted ++ pivot :: drop left sorted).

(** [BinaryInsertionSort]: the elements after the run, placed one by one. *)
Definition BinaryInsertionSort (run rest : list A) : result (list A) :=
  fold_left (λ acc pivot, sorted ←! acc; binary_insert sorted pivot) rest (Ok run).

Definition Array_sort (l : list A) : result (list A) :=
  r ←! CountAndMakeRun l;
  BinaryInsertionSort r.1 r.2.
End ArraySort.

(** ** The plugin *)

Inductive ControlBar : Type := controlBar_ref (id : nat).

(** The player, as far as the plugin looks at it: the quality-levels
    collection when the capability is there ([player.qualityLevels]),
    whether the tech has [hls], the control bar, and [localize].  The
    collection is the list of its levels, which [onAddQualityLevel] reads as
    [levels_] and [setQuality] by index. *)
Record Player : Type := {
  qualityLevels : option (list obj);
  hls : bool;
  controlBar : ControlBar;
  localize : string → string
}.

(** A plugin instance; [bound] tells whether its handler is subscribed to
    ['addqualitylevel'].  [this._options] is the module-level [defaults]
    object itself, so it is not a field: the methods take the current
    content of [defaults]. *)
Record HlsQualitySelectorPlugin : Type := {
  player : Player;
  _qualityButton : option ConcreteButton;
  bound : bool
}.

(** One turn of the loop over [levels] in [onAddQualityLevel]. *)
Definition add_level (_options : obj) (levelItems : list ConcreteMenuItem)
    (level : obj) : list ConcreteMenuItem :=
  if decide (length (filter
       (λ _existingItem,
          value (item _existingItem) = getIdentifierFromLevel _options level false)
       levelItems) = 0%nat)
  then levelItems ++ [getQualityMenuItem
         {| label := getIdentifierFromLevel _options level true;
            value := getIdentifierFromLevel _options level false;
            selected := None |}]
  else levelItems.

Definition item_comparator (current next : ConcreteMenuItem) : result Z :=
  comparator (Object (Some (item current))) (Object (Some (item next))).

(** The list [levelItems] that [onAddQualityLevel] builds: the loop, the
    sort, the push of the Auto entry. *)
Definition buildLevelItems (_options : obj) (p : Player) (levels : list obj)
    : result (list ConcreteMenuItem) :=
  let levelItems := fold_left (add_level _options) levels [] in
  levelItems ←! Array_sort item_comparator levelItems;
  Ok (levelItems ++ [getQualityMenuItem
        {| label := VStr (localize p "Auto");
           value := VStr "auto";
           selected := Some true |}]).

(** [onAddQualityLevel()]: the plugin after the call, and the completion
    of the call. *)
Definition onAddQualityLevel (_options : obj) (this : HlsQualitySelectorPlugin)
    : HlsQualitySelectorPlugin * result val :=
  match qualityLevels (player this) with
  | None => (this, Throw TypeError)
  | Some levels =>
      match buildLevelItems _options (player this) levels with
      | Throw e => (this, Throw e)
      | Ok levelItems =>
          match _qualityButton this with
          | Some b =>
              ({| player := player this;
                  _qualityButton :=
                    Some (update {| createItems := levelItems;
                                    pressed := pressed b |});
                  bound := bound this |},
               Ok VUndefined)
          | None => (this, Ok VUndefined)
          end
      end
  end.

(** The body of the loop of [setQuality]:
    [quality.enabled = (this.getIdentifierFromLevel(quality) === identifier
                        || identifier === 'auto')]. *)
Definition set_enabled (_options : obj) (identifier : val) (quality : obj) : obj :=
  <["enabled" := VBool (strict_eq (getIdentifierFromLevel _options quality false) identifier
                        || strict_eq identifier (VStr "auto"))]> quality.

Definition with_levels (p : Player) (levels : list obj) : Player :=
  {| qualityLevels := Some levels; hls := hls p;
     controlBar := controlBar p; localize := localize p |}.

(** [setQuality(identifier)]: the levels are updated before the button is
    looked at, so they stay updated when that raises. *)
Definition setQuality (_options : obj) (this : HlsQualitySelectorPlugin)
    (identifier : val) : HlsQualitySelectorPlugin * result val :=
  match qualityLevels (player this) with
  | None => (this, Throw TypeError)
  | Some qualityList =>
      let p := with_levels (player this) (set_enabled _options identifier <$> qualityList) in
      match _qualityButton this with
      | None =>
          ({| player := p; _qualityButton := None; bound := bound this |},
           Throw TypeError)
      | Some b =>
          ({| player := p; _qualityButton := Some (unpressButton b);
              bound := bound this |},
           Ok VUndefined)
      end
  end.

End Selector.

(** ** Construction and the module-level defaults *)

(** The object [defaults], which every instance shares as [this._options]:
    its primitive properties, and [parent], which holds a component. *)
Record Options : Type := {
  props : obj;
  parent : option ControlBar
}.

(** [const defaults = { positionIndex: -2, identifyBy: 'height' }] *)
Definition defaults : Options :=
  {| props := {[ "positionIndex" := VNum (-2); "identifyBy" := VStr "height" ]};
     parent := None |}.

(** [Object.assign(target, source)] on own properties; a source that is
    [undefined] is skipped. *)
Definition Object_assign (target : obj) (source : option obj) : obj :=
  match source with
  | Some s => s ∪ target
  | None => target
  end.

(** Modelled from the spec: [new ConcreteButton(player)] (module
    [./ConcreteButton], not among the sources): a button with no items yet,
    not pressed. *)
Definition new_ConcreteButton : ConcreteButton :=
  {| createItems := []; pressed := false |}.

(** [new HlsQualitySelectorPlugin(player, options)], from the content of
    [defaults] before the call: the content of [defaults] after it, and the
    instance.  [this._options.parent = player.controlBar] writes to
    [defaults] too, over any [parent] the options carried.  The placement
    of the button in the control bar is not modelled. *)
Definition constructor (d : Options) (p : Player) (options : option obj)
    : Options * HlsQualitySelectorPlugin :=
  let _options :=
    {| props := delete "parent" (Object_assign (props d) options);
       parent := Some (controlBar p) |} in
  let active := bool_decide (is_Some (qualityLevels p)) && hls p in
  (_options,
   {| player := p;
      _qualityButton := if active then Some new_ConcreteButton else None;
      bound := active |}).

(** ** Vocabulary of the statements *)

(** The [value]s of a list of menu items, in order. *)
Definition item_values (l : list ConcreteMenuItem) : list val :=
  (λ m, value (item m)) <$> l.

(** The Auto entry that ends every reconciled list. *)
Definition auto_item (p : Player) : ConcreteMenuItem :=
  getQualityMenuItem
    {| label := VStr (localize p "Auto"); value := VStr "auto";
       selected := Some true |}.

(** The list of items installed in the button, if there is a button. *)
Definition menu (this : HlsQualitySelectorPlugin) : option (list ConcreteMenuItem) :=
  createItems <$> _qualityButton this.

(** The collection of levels of the plugin's player, or none. *)
Definition levels_of (this : HlsQualitySelectorPlugin) : list obj :=
  default [] (qualityLevels (player this)).

(** The specification of the walk over the collection: an identifier is
    kept at its first occurrence and skipped once seen. *)
Fixpoint first_occurrences (seen ids : list val) : list val :=
  match ids with
  | [] => []
  | v :: rest =>
      if decide (v ∈ seen) then first_occurrences seen rest
      else v :: first_occurrences (seen ++ [v]) rest
  end.

Section ComparatorProperties.
Context {A : Type} (comparefn : A → A → result Z).

(** The comparator does not raise on the elements of [l]. *)
Definition total_on (l : list A) : Prop :=
  ∀ x y, x ∈ l → y ∈ l → ∃ c, comparefn x y = Ok c.

(** On the elements of [l] the comparator orders by an integer key. *)
Definition follows_key (key : A → Z) (l : list A) : Prop :=
  ∀ x y, x ∈ l → y ∈ l →
    ∃ c, comparefn x y = Ok c ∧ (c <? 0) = (key x <? key y).
End ComparatorProperties.

(** The integer a menu item stands for, when its value is a number. *)
Definition numeric_key (m : ConcreteMenuItem) : Z :=
  match value (item m) with
  | VNum n => n
  | _ => 0
  end.

(** The bitrate format as the specification words it: divide by 1000 while
    the value exceeds 1000 and fewer than 4 scalings have been applied
    ([room] is what is left of the 4), then floor, suffix, ["bps"]. *)
Fixpoint spec_scale (room : nat) (scaledValue : Q) (scalings : nat) : Q * nat :=
  match room with
  | O => (scaledValue, scalings)
  | S room' =>
      if Qlt_bool 1000 scaledValue
      then spec_scale room' (scaledValue / 1000) (S scalings)
      else (scaledValue, scalings)
  end.

Definition spec_format_bitrate (n : Z) : string :=
  let '(scaledValue, scalings) := spec_scale 4 (inject_Z n) 0 in
  pretty (Qfloor scaledValue) +:+ default "" (mags !! scalings) +:+ "bps".

(** The same with the test the code makes: divide while the floor of the
    value exceeds 1000. *)
Fixpoint floor_scale (room : nat) (scaledValue : Q) (scalings : nat) : Q * nat :=
  match room with
  | O => (scaledValue, scalings)
  | S room' =>
      if 1000 <? Qfloor scaledValue
      then floor_scale room' (scaledValue / 1000) (S scalings)
      else (scaledValue, scalings)
  end.

Definition floor_format_bitrate (n : Z) : string :=
  let '(scaledValue, scalings) := floor_scale 4 (inject_Z n) 0 in
  pretty (Qfloor scaledValue) +:+ default "" (mags !! scalings) +:+ "bps".

(** ** Inputs of the closed examples *)

(** A runtime for the closed examples; none of them converts a string to a
    number. *)
Definition no_numeric_strings : Runtime :=
  {| StringToNumber := λ _, NaN |}.

(** A level with one numeric attribute. *)
Definition level_with (field : string) (n : Z) : obj := {[ field := VNum n ]}.

(** A player with hls and the given collection of levels. *)
Definition player_with (levels : list obj) : Player :=
  {| qualityLevels := Some levels; hls := true;
     controlBar := controlBar_ref 0; localize := λ s, s |}.

(** The instance the constructor makes for such a player. *)
Definition plugin_with (levels : list obj) : HlsQualitySelectorPlugin :=
  (constructor defaults (player_with levels) None).2.

(** Options that identify by bitrate. *)
Definition by_bitrate : obj := {[ "identifyBy" := VStr "bitrate" ]}.

(** * Properties *)

(** ** [Array.prototype.sort] *)

Section SortFacts.
Context {A : Type} (comparefn : A → A → result Z).

Lemma run_extend_split (isDescending : bool) (previous : A) (l run rest : list A) :
  run_extend comparefn isDescending previous l = Ok (run, rest) → run ++ rest = l.
Proof.
  revert previous run rest.
  induction l as [|current l IH]; intros previous run rest Hr; simpl in Hr.
  - by inversion Hr.
  - destruct (comparefn current previous) as [order|e]; simpl in Hr; [|done].
    destruct (if isDescending then 0 <=? order else order <? 0).
    + by inversion Hr.
    + destruct (run_extend comparefn isDescending current l) as [[run' rest']|e] eqn:Hr';
        simpl in Hr; [|done].
      inversion Hr; subst run rest. simpl. f_equal. by apply (IH current).
Qed.

Lemma CountAndMakeRun_perm (l run rest : list A) :
  CountAndMakeRun comparefn l = Ok (run, rest) → run ++ rest ≡ₚ l.
Proof.
  destruct l as [|a0 [|a1 l]]; simpl; intros Hr.
  - by inversion Hr.
  - by inversion Hr.
  - destruct (comparefn a1 a0) as [order|e]; simpl in Hr; [|done].
    destruct (run_extend comparefn (order <? 0) a1 l) as [[run' rest']|e] eqn:Hr';
      simpl in Hr; [|done].
    apply run_extend_split in Hr'. subst l.
    inversion Hr; subst run rest.
    destruct (order <? 0); [rewrite reverse_Permutation|]; done.
Qed.

Lemma binary_insert_perm (sorted l' : list A) (pivot : A) :
  binary_insert comparefn sorted pivot = Ok l' → l' ≡ₚ pivot :: sorted.
Proof.
  unfold binary_insert.
  destruct (insertion_point _ _ _ _ _ _) as [i|e]; simpl; [|done].
  intros [= <-]. by rewrite <- Permutation_middle, take_drop.
Qed.

Lemma BinaryInsertionSort_cons (run rest : list A) (pivot : A) :
  BinaryInsertionSort comparefn run (pivot :: rest) =
  bind (binary_insert comparefn run pivot)
    (λ sorted, BinaryInsertionSort comparefn sorted rest).
Proof.
  unfold BinaryInsertionSort. simpl.
  destruct (binary_insert comparefn run pivot) as [sorted|e]; simpl; [done|].
  induction rest as [|x rest IH]; simpl; done.
Qed.

Lemma BinaryInsertionSort_perm (run rest l' : list A) :
  BinaryInsertionSort comparefn run rest = Ok l' → l' ≡ₚ run ++ rest.
Proof.
  revert run. induction rest as [|pivot rest IH]; intros run Hl'.
  - inversion Hl'. by rewrite app_nil_r.
  - rewrite BinaryInsertionSort_cons in Hl'.
    destruct (binary_insert comparefn run pivot) as [sorted|e] eqn:Hs;
      simpl in Hl'; [|done].
    rewrite (IH _ Hl'), (binary_insert_perm _ _ _ Hs).
    by rewrite <- (Permutation_middle run).
Qed.

Lemma Array_sort_perm (l l' : list A) :
  Array_sort comparefn l = Ok l' → l' ≡ₚ l.
Proof.
  unfold Array_sort.
  destruct (CountAndMakeRun comparefn l) as [[run rest]|e] eqn:Hr; simpl; [|done].
  intros Hl'%BinaryInsertionSort_perm. by rewrite Hl', (CountAndMakeRun_perm _ _ _ Hr).
Qed.

Lemma run_extend_returns (isDescending : bool) (previous : A) (l : list A) :
  (∀ x y, x ∈ previous :: l → y ∈ previous :: l → ∃ c, comparefn x y = Ok c) →
  ∃ r, run_extend comparefn isDescending previous l = Ok r.
Proof.
  revert previous. induction l as [|current l IH]; intros previous Hc; simpl;
    [by eexists|].
  destruct (Hc current previous) as [order ->]; [by right; left|by left|]. simpl.
  destruct (if isDescending then 0 <=? order else order <? 0); [by eexists|].
  destruct (IH current) as [r ->]; [|by eexists].
  intros x y Hx Hy. apply Hc; by right.
Qed.

Lemma insertion_point_S (fuel : nat) (pivot : A) (sorted : list A)
    (left right : nat) :
  insertion_point comparefn (S fuel) pivot sorted left right =
  if bool_decide (left < right)%nat then
    match sorted !! (left + (right - left) / 2)%nat with
    | Some x =>
        bind (comparefn pivot x)
          (λ order,
             if order <? 0
             then insertion_point comparefn fuel pivot sorted left
                    (left + (right - left) / 2)%nat
             else insertion_point comparefn fuel pivot sorted
                    (S (left + (right - left) / 2)) right)
    | None => Ok left
    end
  else Ok left.
Proof. reflexivity. Qed.

(** The fuel of [binary_insert] is enough: with the length of the interval
    as fuel the search has ended, and more fuel gives the same place. *)
Lemma insertion_point_fuel (fuel extra : nat) (pivot : A) (sorted : list A)
    (left right : nat) :
  (right - left ≤ fuel)%nat →
  insertion_point comparefn (fuel + extra) pivot sorted left right
  = insertion_point comparefn fuel pivot sorted left right.
Proof.
  revert left right. induction fuel as [|fuel IH]; intros left right Hfuel.
  - destruct extra as [|extra]; [done|]. simpl plus. rewrite insertion_point_S.
    by rewrite bool_decide_eq_false_2 by lia.
  - simpl plus. rewrite !insertion_point_S.
    destruct (decide (left < right)%nat) as [Hlt|Hge];
      [|by rewrite !bool_decide_eq_false_2].
    rewrite !bool_decide_eq_true_2 by done.
    pose proof (Nat.div_lt (right - left) 2 ltac:(lia) ltac:(lia)) as Hhalf.
    generalize dependent ((right - left) / 2)%nat. intros half Hhalf.
    destruct (sorted !! _) as [x|]; [|done].
    destruct (comparefn pivot x) as [order|e]; simpl; [|done].
    destruct (order <? 0); apply IH; lia.
Qed.

Lemma insertion_point_returns (fuel : nat) (pivot : A) (sorted : list A)
    (left right : nat) :
  (∀ x, x ∈ sorted → ∃ c, comparefn pivot x = Ok c) →
  ∃ i, insertion_point comparefn fuel pivot sorted left right = Ok i.
Proof.
  intros Hc. revert left right.
  induction fuel as [|fuel IH]; intros left right; [by eexists|].
  rewrite insertion_point_S.
  destruct (bool_decide (left < right)%nat); [|by eexists].
  destruct (sorted !! _) as [x|] eqn:Hx; [|by eexists].
  destruct (Hc x) as [order ->]; [by eapply list_elem_of_lookup_2|]. simpl.
  destruct (order <? 0); apply IH.
Qed.

Lemma BinaryInsertionSort_returns (run rest : list A) :
  total_on comparefn (run ++ rest) →
  ∃ l', BinaryInsertionSort comparefn run rest = Ok l'.
Proof.
  revert run. induction rest as [|pivot rest IH]; intros run Hc; [by eexists|].
  rewrite BinaryInsertionSort_cons.
  destruct (insertion_point_returns (length run) pivot run 0 (length run))
    as [i Hi].
  { intros x Hx. apply Hc; apply elem_of_app; [by right; left|by left]. }
  unfold binary_insert at 1. rewrite Hi. simpl. apply IH.
  assert ((take i run ++ pivot :: drop i run) ++ rest ≡ₚ run ++ pivot :: rest)
    as Hp.
  { rewrite <- (Permutation_middle (take i run)), take_drop.
    by rewrite <- (Permutation_middle run). }
  intros x y Hx Hy. rewrite Hp in Hx, Hy. by apply Hc.
Qed.

(** The sort returns when the comparator does. *)
Lemma Array_sort_returns (l : list A) :
  total_on comparefn l → ∃ l', Array_sort comparefn l = Ok l'.
Proof.
  intros Hc. unfold Array_sort.
  assert (∃ r, CountAndMakeRun comparefn l = Ok r) as [[run rest] Hr].
  { destruct l as [|a0 [|a1 l]]; simpl; [by eexists|by eexists|].
    destruct (Hc a1 a0) as [order ->]; [by right; left|by left|]. simpl.
    destruct (run_extend_returns (order <? 0) a1 l) as [r ->]; [|by eexists].
    intros x y Hx Hy. apply Hc; by right. }
  rewrite Hr. simpl. apply BinaryInsertionSort_returns.
  intros x y Hx Hy. rewrite (CountAndMakeRun_perm _ _ _ Hr) in Hx, Hy.
  by apply Hc.
Qed.

Context (key : A → Z).

Local Abbreviation le_key := (λ a b, key a ≤ key b).

Lemma StronglySorted_lookup_le (sorted : list A) (i j : nat) (x y : A) :
  StronglySorted le_key sorted →
  sorted !! i = Some x → sorted !! j = Some y → (i ≤ j)%nat → key x ≤ key y.
Proof.
  intros Hs Hi Hj Hij.
  destruct (decide (i = j)) as [->|Hne]; [rewrite Hi in Hj; injection Hj as ->; lia|].
  rewrite <- (take_drop_middle _ _ _ Hj) in Hs.
  apply (StronglySorted_app_1_elem_of _ _ _ x y) in Hs; [done| |by left].
  apply elem_of_take. exists i. split; [done|lia].
Qed.

(** The search ends at a place with nothing above the pivot before it and
    nothing at or below the pivot from it on. *)
Lemma insertion_point_place (fuel : nat) (pivot : A) (sorted : list A)
    (left right : nat) :
  (∀ x, x ∈ sorted →
     ∃ c, comparefn pivot x = Ok c ∧ (c <? 0) = (key pivot <? key x)) →
  StronglySorted le_key sorted →
  (right - left ≤ fuel)%nat → (left ≤ right ≤ length sorted)%nat →
  (∀ j x, (j < left)%nat → sorted !! j = Some x → key x ≤ key pivot) →
  (∀ j x, (right ≤ j)%nat → sorted !! j = Some x → key pivot < key x) →
  ∃ i, insertion_point comparefn fuel pivot sorted left right = Ok i
    ∧ (i ≤ length sorted)%nat
    ∧ (∀ j x, (j < i)%nat → sorted !! j = Some x → key x ≤ key pivot)
    ∧ (∀ j x, (i ≤ j)%nat → sorted !! j = Some x → key pivot < key x).
Proof.
  intros Hc Hs. revert left right.
  induction fuel as [|fuel IH]; intros left right Hfuel Hlr Hbelow Habove;
    [|rewrite insertion_point_S].
  - exists left. split; [done|]. split; [lia|]. split; [done|].
    intros j x Hj. apply Habove. lia.
  - destruct (decide (left < right)%nat) as [Hlt|Hge].
    + rewrite (bool_decide_eq_true_2 _ Hlt).
      pose proof (Nat.div_lt (right - left) 2 ltac:(lia) ltac:(lia)) as Hhalf.
      generalize dependent ((right - left) / 2)%nat. intros half Hhalf.
      destruct (lookup_lt_is_Some_2 sorted (left + half)) as [x Hx]; [lia|].
      rewrite Hx.
      destruct (Hc x) as (order & -> & Horder); [by eapply list_elem_of_lookup_2|].
      simpl. rewrite Horder.
      destruct (Z.ltb_spec (key pivot) (key x)) as [Hpx|Hpx].
      * apply IH; [lia|lia|exact Hbelow|].
        intros j y Hj Hy.
        pose proof (StronglySorted_lookup_le sorted _ j x y Hs Hx Hy Hj). lia.
      * apply IH; [lia|lia| |exact Habove].
        intros j y Hj Hy.
        pose proof (StronglySorted_lookup_le sorted j _ y x Hs Hy Hx ltac:(lia)). lia.
    + rewrite (bool_decide_eq_false_2 _ Hge).
      exists left. split; [done|]. split; [lia|]. split; [done|].
      intros j x Hj. apply Habove. lia.
Qed.

Lemma binary_insert_sorted (sorted l' : list A) (pivot : A) :
  (∀ x, x ∈ sorted →
     ∃ c, comparefn pivot x = Ok c ∧ (c <? 0) = (key pivot <? key x)) →
  StronglySorted le_key sorted →
  binary_insert comparefn sorted pivot = Ok l' →
  StronglySorted le_key l'.
Proof.
  intros Hc Hs. unfold binary_insert.
  destruct (insertion_point_place (length sorted) pivot sorted 0 (length sorted))
    as (i & -> & Hi & Hbelow & Habove); [exact Hc|exact Hs|lia|lia| | |].
  { intros j x Hj. lia. }
  { intros j x Hj Hx. apply lookup_lt_Some in Hx. lia. }
  simpl. intros [= <-].
  rewrite <- (take_drop i sorted) in Hs.
  apply StronglySorted_app in Hs as (Hcross & Htake & Hdrop).
  apply StronglySorted_app_2; [|done|].
  - intros x y [j [Hx Hj]]%elem_of_take [->|Hy]%elem_of_cons.
    + by apply (Hbelow j).
    + by apply Hcross; [apply elem_of_take; eauto|].
  - constructor; [done|]. apply Forall_forall. intros y Hy.
    apply list_elem_of_lookup in Hy as [j Hy]. rewrite lookup_drop in Hy.
    pose proof (Habove (i + j)%nat y ltac:(lia) Hy). lia.
Qed.

Lemma BinaryInsertionSort_sorted (run rest l' : list A) :
  follows_key comparefn key (run ++ rest) →
  StronglySorted le_key run →
  BinaryInsertionSort comparefn run rest = Ok l' →
  StronglySorted le_key l'.
Proof.
  revert run. induction rest as [|pivot rest IH]; intros run Hc Hs Hl'.
  - injection Hl' as <-. exact Hs.
  - rewrite BinaryInsertionSort_cons in Hl'.
    destruct (binary_insert comparefn run pivot) as [sorted|e] eqn:Hb;
      simpl in Hl'; [|done].
    apply (IH sorted); [| |done].
    + assert (sorted ++ rest ≡ₚ run ++ pivot :: rest) as Hp.
      { rewrite (binary_insert_perm _ _ _ Hb).
        by rewrite <- (Permutation_middle run). }
      intros x y Hx Hy. rewrite Hp in Hx, Hy. by apply Hc.
    + apply (binary_insert_sorted run _ pivot); [|done|done].
      intros x Hx. apply Hc; apply elem_of_app; [by right; left|by left].
Qed.

Lemma Sorted_mono (R1 R2 : relation A) (l : list A) :
  (∀ x y, R1 x y → R2 x y) → Sorted R1 l → Sorted R2 l.
Proof.
  intros HR. induction 1 as [|x l Hs IH Hhd]; constructor; [done|].
  destruct Hhd; constructor. by apply HR.
Qed.

(** The run an array starts with: ascending as it is, or strictly
    descending. *)
Lemma run_extend_sorted (isDescending : bool) (previous : A) (l run rest : list A) :
  (∀ x y, x ∈ previous :: l → y ∈ previous :: l →
     ∃ c, comparefn x y = Ok c ∧ (c <? 0) = (key x <? key y)) →
  run_extend comparefn isDescending previous l = Ok (run, rest) →
  if isDescending
  then Sorted (λ a b, key b < key a) (previous :: run)
  else Sorted le_key (previous :: run).
Proof.
  revert previous run rest.
  induction l as [|current l IH]; intros previous run rest Hc Hr; simpl in Hr.
  - inversion Hr. destruct isDescending; by repeat constructor.
  - destruct (Hc current previous) as (order & Ho & Horder);
      [by right; left|by left|].
    rewrite Ho in Hr. simpl in Hr.
    destruct (if isDescending then 0 <=? order else order <? 0) eqn:Hstop.
    + inversion Hr. destruct isDescending; by repeat constructor.
    + destruct (run_extend comparefn isDescending current l) as [[run' rest']|e] eqn:Hr';
        simpl in Hr; [|done].
      inversion Hr; subst run rest.
      assert (∀ x y, x ∈ current :: l → y ∈ current :: l →
                ∃ c, comparefn x y = Ok c ∧ (c <? 0) = (key x <? key y)) as Hc'.
      { intros x y Hx Hy. apply Hc; by right. }
      specialize (IH current run' rest' Hc' Hr').
      destruct isDescending.
      * constructor; [done|]. constructor.
        apply Z.leb_gt in Hstop. apply Z.ltb_lt. by rewrite <- Horder, Z.ltb_lt.
      * constructor; [done|]. constructor.
        rewrite Horder in Hstop. apply Z.ltb_ge in Hstop. lia.
Qed.

Lemma CountAndMakeRun_sorted (l run rest : list A) :
  follows_key comparefn key l →
  CountAndMakeRun comparefn l = Ok (run, rest) →
  StronglySorted le_key run.
Proof.
  assert (Transitive le_key) by (intros ???; lia).
  intros Hc Hr. apply Sorted_StronglySorted; [done|].
  destruct l as [|a0 [|a1 l]]; simpl in Hr.
  - inversion Hr. constructor.
  - inversion Hr. by repeat constructor.
  - destruct (Hc a1 a0) as (order & Ho & Horder); [by right; left|by left|].
    rewrite Ho in Hr. simpl in Hr.
    destruct (run_extend comparefn (order <? 0) a1 l) as [[run' rest']|e] eqn:Hr';
      simpl in Hr; [|done].
    apply run_extend_sorted in Hr'; [|intros x y Hx Hy; apply Hc; by right].
    inversion Hr; subst run rest. rewrite Horder in *.
    destruct (Z.ltb_spec (key a1) (key a0)) as [Hlt|Hge].
    + assert (Sorted (λ a b, key b < key a) (a0 :: a1 :: run')) as Hdesc.
      { constructor; [done|]. by constructor. }
      apply Sorted_reverse in Hdesc.
      eapply Sorted_mono; [|exact Hdesc]. unfold flip. intros; lia.
    + constructor; [done|]. by constructor.
Qed.

(** A comparator that orders by a key sorts by that key. *)
Lemma Array_sort_sorted (l l' : list A) :
  follows_key comparefn key l →
  Array_sort comparefn l = Ok l' →
  Sorted le_key l'.
Proof.
  intros Hc. unfold Array_sort.
  destruct (CountAndMakeRun comparefn l) as [[run rest]|e] eqn:Hr; simpl; [|done].
  intros Hl'. apply StronglySorted_Sorted.
  apply (BinaryInsertionSort_sorted run rest); [|by eapply CountAndMakeRun_sorted|done].
  intros x y Hx Hy. rewrite (CountAndMakeRun_perm _ _ _ Hr) in Hx, Hy.
  by apply Hc.
Qed.
End SortFacts.


(** A list sorted by [≤] without duplicates is strictly ascending. *)
Lemma Sorted_le_NoDup_lt (ns : list Z) :
  Sorted Z.le ns → NoDup ns → StronglySorted Z.lt ns.
Proof.
  intros Hs%Sorted_StronglySorted; [|intros ???; lia].
  induction Hs as [|n ns Hs IH Hall]; intros Hnd; [constructor|].
  apply NoDup_cons in Hnd as [Hn Hnd].
  constructor; [by apply IH|].
  apply Forall_forall. intros m Hm.
  rewrite Forall_forall in Hall. specialize (Hall m Hm).
  assert (n ≠ m) by (intros ->; done). lia.
Qed.

(** ** The walk over the collection *)

Lemma first_occurrences_fresh (seen ids : list val) (v : val) :
  v ∈ first_occurrences seen ids → v ∈ ids ∧ v ∉ seen.
Proof.
  revert seen. induction ids as [|w ids IH]; intros seen; simpl.
  - by intros ?%elem_of_nil.
  - destruct (decide (w ∈ seen)) as [Hw|Hw].
    + intros [??]%IH. split; [by right|done].
    + intros [->|Hv]%elem_of_cons; [split; [by left|done]|].
      apply IH in Hv as [Hv Hs]. split; [by right|].
      intros ?. apply Hs, elem_of_app. by left.
Qed.

Lemma first_occurrences_complete (seen ids : list val) (v : val) :
  v ∈ ids → v ∉ seen → v ∈ first_occurrences seen ids.
Proof.
  revert seen. induction ids as [|w ids IH]; intros seen; simpl.
  - by intros ?%elem_of_nil.
  - intros Hv Hs. destruct (decide (w ∈ seen)) as [Hw|Hw].
    + apply IH; [|done]. apply elem_of_cons in Hv as [->|]; done.
    + destruct (decide (v = w)) as [->|Hne]; [by left|]. right.
      apply IH.
      * apply elem_of_cons in Hv as [|]; done.
      * intros [?|?%list_elem_of_singleton]%elem_of_app; done.
Qed.

Lemma first_occurrences_NoDup (seen ids : list val) :
  NoDup (first_occurrences seen ids).
Proof.
  revert seen. induction ids as [|w ids IH]; intros seen; simpl.
  - constructor.
  - destruct (decide (w ∈ seen)); [done|].
    constructor; [|done].
    intros [_ Hw]%first_occurrences_fresh. apply Hw, elem_of_app. right.
    by apply list_elem_of_singleton.
Qed.

Section SelectorFacts.
Context `{Runtime}.

(** The identifiers of a collection, in order. *)
Local Abbreviation ids _options levels :=
  ((λ level, getIdentifierFromLevel _options level false) <$> levels).

Lemma filter_none_values (v : val) (l : list ConcreteMenuItem) :
  length (filter (λ m, value (item m) = v) l) = 0%nat ↔ v ∉ item_values l.
Proof.
  unfold item_values. induction l as [|m l IH]; simpl.
  - split; [intros _ ?%elem_of_nil; done|done].
  - rewrite filter_cons. destruct (decide (value (item m) = v)) as [<-|Hne]; simpl.
    + split; [done|]. intros Hv. destruct Hv. by left.
    + rewrite IH. split.
      * intros Hv [?|?]%elem_of_cons; done.
      * intros Hv ?. apply Hv. by right.
Qed.

Lemma add_level_values (_options : obj) (acc : list ConcreteMenuItem) (level : obj) :
  item_values (add_level _options acc level) =
  let v := getIdentifierFromLevel _options level false in
  if decide (v ∈ item_values acc) then item_values acc else item_values acc ++ [v].
Proof.
  unfold add_level. simpl.
  destruct (decide (length _ = 0%nat)) as [Hn|Hn];
    rewrite filter_none_values in Hn;
    destruct (decide (_ ∈ item_values acc)) as [Hv|Hv]; try done.
  unfold item_values. by rewrite fmap_app.
Qed.

(** The loop keeps the first occurrence of every identifier. *)
Lemma walk_values (_options : obj) (levels : list obj) (acc : list ConcreteMenuItem) :
  item_values (fold_left (add_level _options) levels acc) =
  item_values acc ++ first_occurrences (item_values acc) (ids _options levels).
Proof.
  revert acc. induction levels as [|level levels IH]; intros acc; simpl.
  - by rewrite app_nil_r.
  - rewrite IH, add_level_values. simpl.
    destruct (decide (_ ∈ item_values acc)); [done|].
    by rewrite <- app_assoc.
Qed.

Lemma js_lt_num (a b : Z) : js_lt (VNum a) (VNum b) = (a <? b).
Proof.
  unfold js_lt, ToNumber, Qlt_bool, Qle_bool. simpl.
  rewrite !Z.mul_1_r. destruct (Z.ltb_spec a b), (Z.leb_spec b a); simpl; lia.
Qed.

(** On menu items the comparator never raises. *)
Lemma item_comparator_returns (current next : ConcreteMenuItem) :
  ∃ c, item_comparator current next = Ok c.
Proof.
  unfold item_comparator, comparator. simpl.
  destruct (js_lt _ _); [by eexists|]. destruct (js_gt _ _); by eexists.
Qed.

Lemma item_comparator_numeric (l : list ConcreteMenuItem) :
  Forall (λ m, ∃ n, value (item m) = VNum n) l →
  follows_key item_comparator numeric_key l.
Proof.
  rewrite Forall_forall. intros Hnum x y Hx Hy.
  destruct (Hnum x Hx) as [a Ha], (Hnum y Hy) as [b Hb].
  unfold item_comparator, comparator, numeric_key, js_gt. simpl.
  rewrite Ha, Hb, !js_lt_num.
  destruct (Z.ltb_spec a b); [by eexists|].
  destruct (Z.ltb_spec b a); by eexists.
Qed.

(** The list built by [onAddQualityLevel] is a rearrangement of the items
    of the walk, then the Auto entry. *)
Lemma buildLevelItems_returns (_options : obj) (p : Player) (levels : list obj) :
  ∃ real, buildLevelItems _options p levels = Ok (real ++ [auto_item p])
    ∧ Array_sort item_comparator (fold_left (add_level _options) levels []) = Ok real
    ∧ real ≡ₚ fold_left (add_level _options) levels [].
Proof.
  unfold buildLevelItems.
  destruct (Array_sort_returns item_comparator
              (fold_left (add_level _options) levels [])) as [real Hreal].
  { intros x y _ _. apply item_comparator_returns. }
  exists real. rewrite Hreal. simpl. split; [done|]. split; [done|].
  by apply Array_sort_perm in Hreal.
Qed.

Lemma real_values (_options : obj) (levels : list obj) (real : list ConcreteMenuItem) :
  real ≡ₚ fold_left (add_level _options) levels [] →
  item_values real ≡ₚ first_occurrences [] (ids _options levels).
Proof.
  intros Hp. unfold item_values at 1. rewrite Hp.
  fold (item_values (fold_left (add_level _options) levels [])).
  by rewrite walk_values.
Qed.

(** What [onAddQualityLevel] does to a plugin with a collection and a
    button. *)
Lemma onAddQualityLevel_installs (_options : obj) (this : HlsQualitySelectorPlugin)
    (levels : list obj) (b : ConcreteButton) :
  qualityLevels (player this) = Some levels →
  _qualityButton this = Some b →
  ∃ levelItems,
    buildLevelItems _options (player this) levels = Ok levelItems
    ∧ onAddQualityLevel _options this =
        ({| player := player this;
            _qualityButton :=
              Some (update {| createItems := levelItems; pressed := pressed b |});
            bound := bound this |}, Ok VUndefined).
Proof.
  intros Hl Hb. unfold onAddQualityLevel. rewrite Hl.
  destruct (buildLevelItems_returns _options (player this) levels) as (real & -> & _).
  rewrite Hb. by eexists.
Qed.

(** ** Reconciliation *)


(** C2.  No two real entries of the installed list have the same value: the
    values of the real entries are, up to the order the sort gives them, the
    first occurrences of the identifiers of the collection.  Heights
    [720, 720, 1080] give the two real entries [720, 1080], in that
    order. *)
Theorem onAddQualityLevel_no_duplicates :
  (∀ (_options : obj) (this : HlsQualitySelectorPlugin) (levels : list obj)
     (b : ConcreteButton),
     qualityLevels (player this) = Some levels →
     _qualityButton this = Some b →
     ∃ real,
       menu (onAddQualityLevel _options this).1 = Some (real ++ [auto_item (player this)])
       ∧ NoDup (item_values real)
       ∧ item_values (fold_left (add_level _options) levels [])
           = first_occurrences [] (ids _options levels)
       ∧ real ≡ₚ fold_left (add_level _options) levels [])
  ∧ item_values <$>
      menu (onAddQualityLevel (props defaults)
              (plugin_with (level_with "height" <$> [720; 720; 1080]))).1
    = Some [VNum 720; VNum 1080; VStr "auto"].
Proof.
  split; [|by vm_compute].
  intros _options this levels b Hl Hb.
  destruct (onAddQualityLevel_installs _options this levels b Hl Hb)
    as (levelItems & Hbuild & ->).
  destruct (buildLevelItems_returns _options (player this) levels)
    as (real & Hreal & _ & Hperm).
  rewrite Hreal in Hbuild. inversion Hbuild; subst levelItems.
  exists real. split; [done|]. split; [|split; [|done]].
  - rewrite (real_values _ _ _ Hperm). apply first_occurrences_NoDup.
  - by rewrite walk_values.
Qed.

(** ** Formatting *)

(** The fuel of [format_bitrate] is enough: the loop has ended, its test is
    false at the state returned. *)
Lemma scale_exit (x : number) :
  let '(x', mag) := scale scale_fuel x 0 in
  floor_gt_1e3 x' && bool_decide (mag < length mags)%nat = false.
Proof.
  assert (∀ fuel x mag, (length mags - mag < fuel)%nat →
            let '(x', mag') := scale fuel x mag in
            floor_gt_1e3 x' && bool_decide (mag' < length mags)%nat = false) as Hgen.
  { clear x. induction fuel as [|fuel IH]; intros x mag Hfuel; [lia|]. simpl.
    destruct (floor_gt_1e3 x && bool_decide (mag < 5)%nat) eqn:Htest; [|done].
    apply IH. apply andb_true_iff in Htest as [_ Hmag%bool_decide_eq_true].
    simpl in *. lia. }
  apply Hgen. unfold scale_fuel. lia.
Qed.

Lemma Qfloor_lt_bound (q : Q) (z : Z) : (q < inject_Z z)%Q → Qfloor q < z.
Proof.
  intros Hq. rewrite Zlt_Qlt.
  eapply Qle_lt_trans; [apply Qfloor_le|exact Hq].
Qed.

Lemma floor_scale_scalings (room : nat) (q : Q) (k : nat) :
  ((floor_scale room q k).2 ≤ k + room)%nat.
Proof.
  revert q k. induction room as [|room IH]; intros q k; simpl; [lia|].
  destruct (1000 <? Qfloor q); simpl; [|lia].
  specialize (IH (q / 1000)%Q (S k)). lia.
Qed.

(** Below 1001e12 the loop of the code makes at most 4 divisions, and is
    the loop on the floor. *)
Lemma scale_floor_scale (room : nat) (q : Q) (k fuel : nat) :
  (room < fuel)%nat → (k + room = 4)%nat →
  (q < inject_Z (1001 * 1000 ^ Z.of_nat room))%Q →
  scale fuel (Fin q) k = let '(q', k') := floor_scale room q k in (Fin q', k').
Proof.
  revert q k fuel. induction room as [|room IH]; intros q k fuel Hfuel Hk Hq;
    (destruct fuel as [|fuel]; [lia|]); simpl.
  - apply Qfloor_lt_bound in Hq. unfold floor_gt_1e3. simpl.
    destruct (Z.ltb_spec 1000 (Qfloor q)); [lia|done].
  - unfold floor_gt_1e3 at 1. simpl Math_floor.
    rewrite (bool_decide_eq_true_2 (k < 5)%nat) by lia. rewrite andb_true_r.
    destruct (1000 <? Qfloor q); [|done].
    apply IH; [lia|lia|].
    apply Qlt_shift_div_r; [done|].
    change 1000%Q with (inject_Z 1000). rewrite <- inject_Z_mult.
    replace (1001 * 1000 ^ Z.of_nat room * 1000)
      with (1001 * 1000 ^ Z.of_nat (S room)); [done|].
    rewrite Nat2Z.inj_succ, Z.pow_succ_r by lia. lia.
Qed.

Lemma format_bitrate_floor (n : Z) :
  n < 1001 * 10 ^ 12 → format_bitrate (VNum n) = floor_format_bitrate n.
Proof.
  intros Hn. unfold format_bitrate, floor_format_bitrate, scale_fuel. simpl ToNumber.
  rewrite (scale_floor_scale 4 (inject_Z n) 0) by
    (simpl; try lia; rewrite <- Zlt_Qlt; lia).
  pose proof (floor_scale_scalings 4 (inject_Z n) 0) as Hk.
  destruct (floor_scale 4 (inject_Z n) 0) as [q k]. simpl in Hk.
  unfold bitrate_label, floor_ToString. simpl Math_floor.
  do 5 (destruct k as [|k]; [done|]). lia.
Qed.

Lemma getIdentifierFromLevel_unformatted (_options level : obj) :
  getIdentifierFromLevel _options level false =
  js_or (get level (ToString (get _options "identifyBy"))) (get level "height").
Proof. done. Qed.

Lemma getIdentifierFromLevel_bitrate (_options level : obj) :
  get _options "identifyBy" = VStr "bitrate" →
  getIdentifierFromLevel _options level true =
  VStr (format_bitrate (getIdentifierFromLevel _options level false)).
Proof. intros Hby. unfold getIdentifierFromLevel. by rewrite Hby. Qed.

(** C3, amended.  With the discriminator ["bitrate"], an identifier that is
    a number below 1001e12 is formatted as: divide by 1000 while the floor
    of the value exceeds 1000 and fewer than 4 divisions have been made,
    then the floor of the scaled value, the suffix of [mags] at the number
    of divisions, and ["bps"]. *)
Theorem getIdentifierFromLevel_bitrate_format (_options level : obj) (n : Z) :
  get _options "identifyBy" = VStr "bitrate" →
  getIdentifierFromLevel _options level false = VNum n →
  n < 1001 * 10 ^ 12 →
  getIdentifierFromLevel _options level true = VStr (floor_format_bitrate n).
Proof.
  intros Hby Hid Hn.
  by rewrite getIdentifierFromLevel_bitrate, Hid, format_bitrate_floor.
Qed.

(** C4, amended.  With the discriminator ["bitrate"], 2500000 is formatted
    as ["2Mbps"], 999 as ["999bps"] and 1000000000 as ["1000Mbps"]. *)
Theorem getIdentifierFromLevel_bitrate_examples (_options level : obj) :
  get _options "identifyBy" = VStr "bitrate" →
  (getIdentifierFromLevel _options level false = VNum 2500000 →
   getIdentifierFromLevel _options level true = VStr "2Mbps")
  ∧ (getIdentifierFromLevel _options level false = VNum 999 →
     getIdentifierFromLevel _options level true = VStr "999bps")
  ∧ (getIdentifierFromLevel _options level false = VNum 1000000000 →
     getIdentifierFromLevel _options level true = VStr "1000Mbps").
Proof.
  intros Hby. rewrite (getIdentifierFromLevel_bitrate _ _ Hby).
  repeat split; intros ->; by vm_compute.
Qed.

(** C6.  Without formatting, the identifier of a level is the value of its
    discriminator field when that value is truthy, and the value of its
    [height] otherwise: when the field is missing, and when it holds a
    falsy value such as 0. *)
Theorem getIdentifierFromLevel_fallback (_options level : obj) :
  let field := ToString (get _options "identifyBy") in
  (∀ v, level !! field = Some v → ToBoolean v = true →
     getIdentifierFromLevel _options level false = v)
  ∧ (level !! field = None →
     getIdentifierFromLevel _options level false = get level "height")
  ∧ (∀ v, level !! field = Some v → ToBoolean v = false →
     getIdentifierFromLevel _options level false = get level "height")
  ∧ (level !! field = Some (VNum 0) →
     getIdentifierFromLevel _options level false = get level "height").
Proof.
  intros field. subst field.
  rewrite getIdentifierFromLevel_unformatted. unfold js_or, get.
  repeat split.
  - intros v -> Hv. simpl. by rewrite Hv.
  - by intros ->.
  - intros v -> Hv. simpl. by rewrite Hv.
  - by intros ->.
Qed.

(** From 1001e12 on the loop makes a fifth division, [mags[5]] is
    [undefined] and the label is ["NaNbps"]. *)
Lemma format_bitrate_past_mags :
  format_bitrate (VNum (1001 * 10 ^ 12)) = "NaNbps".
Proof. by vm_compute. Qed.

(** ** Selection *)

Lemma setQuality_levels (_options : obj) (this : HlsQualitySelectorPlugin)
    (levels : list obj) (identifier : val) :
  qualityLevels (player this) = Some levels →
  qualityLevels (player (setQuality _options this identifier).1)
    = Some (set_enabled _options identifier <$> levels).
Proof.
  intros Hl. unfold setQuality. rewrite Hl. by destruct (_qualityButton this).
Qed.

(** C5.  [setQuality(identifier)] leaves every level of the collection with
    [enabled] set to [true] when the identifier of the level is the chosen
    one or the chosen one is ["auto"], and to [false] otherwise, and changes
    nothing else of the level.  On heights [480, 720, 1080] choosing 720
    gives the flags [false, true, false] and choosing ["auto"] gives
    [true, true, true]. *)
Theorem setQuality_enabled :
  (∀ (_options : obj) (this : HlsQualitySelectorPlugin) (levels : list obj)
     (identifier : val),
     qualityLevels (player this) = Some levels →
     ∃ levels',
       qualityLevels (player (setQuality _options this identifier).1) = Some levels'
       ∧ length levels' = length levels
       ∧ ∀ i quality, levels !! i = Some quality →
           ∃ quality', levels' !! i = Some quality'
             ∧ get quality' "enabled" =
                 VBool (bool_decide
                   (getIdentifierFromLevel _options quality false = identifier
                    ∨ identifier = VStr "auto"))
             ∧ ∀ k, k ≠ "enabled" → quality' !! k = quality !! k)
  ∧ (λ quality, get quality "enabled") <$>
      levels_of (setQuality (props defaults)
                   (plugin_with (level_with "height" <$> [480; 720; 1080]))
                   (VNum 720)).1
    = [VBool false; VBool true; VBool false]
  ∧ (λ quality, get quality "enabled") <$>
      levels_of (setQuality (props defaults)
                   (plugin_with (level_with "height" <$> [480; 720; 1080]))
                   (VStr "auto")).1
    = [VBool true; VBool true; VBool true].
Proof.
  split; [|split; by vm_compute].
  intros _options this levels identifier Hl.
  exists (set_enabled _options identifier <$> levels).
  split; [by apply setQuality_levels|]. split; [by rewrite length_fmap|].
  intros i quality Hi. exists (set_enabled _options identifier quality).
  split; [by rewrite list_lookup_fmap, Hi|]. unfold set_enabled, get, strict_eq.
  split.
  - rewrite lookup_insert_eq. simpl. f_equal.
    destruct (decide (getIdentifierFromLevel _options quality false = identifier)),
      (decide (identifier = VStr "auto"));
      repeat first [rewrite bool_decide_eq_true_2 by tauto
                   |rewrite bool_decide_eq_false_2 by tauto]; done.
  - intros k Hk. by rewrite lookup_insert_ne.
Qed.

(** On a plugin with its button, choosing an identifier that is not
    ["auto"] and is the identifier of no level raises nothing, returns
    [undefined], and leaves every level with [enabled] set to [false]. *)
Theorem setQuality_no_match (_options : obj) (this : HlsQualitySelectorPlugin)
    (levels : list obj) (b : ConcreteButton) (identifier : val) :
  qualityLevels (player this) = Some levels →
  _qualityButton this = Some b →
  identifier ≠ VStr "auto" →
  (∀ quality, quality ∈ levels →
     getIdentifierFromLevel _options quality false ≠ identifier) →
  (setQuality _options this identifier).2 = Ok VUndefined
  ∧ ∃ levels',
      qualityLevels (player (setQuality _options this identifier).1) = Some levels'
      ∧ length levels' = length levels
      ∧ Forall (λ quality, get quality "enabled" = VBool false) levels'.
Proof.
  intros Hl Hb Hauto Hnone. split.
  - unfold setQuality. by rewrite Hl, Hb.
  - exists (set_enabled _options identifier <$> levels).
    split; [by apply setQuality_levels|]. split; [by rewrite length_fmap|].
    apply Forall_fmap, Forall_forall. intros quality Hq. simpl.
    unfold set_enabled, get, strict_eq. rewrite lookup_insert_eq. simpl.
    rewrite !bool_decide_eq_false_2; [done|done|by apply Hnone].
Qed.

(** Without a button the call still updates the levels, then raises at
    [this._qualityButton.unpressButton()]. *)
Lemma setQuality_without_button (_options : obj) (this : HlsQualitySelectorPlugin)
    (levels : list obj) (identifier : val) :
  qualityLevels (player this) = Some levels →
  _qualityButton this = None →
  (setQuality _options this identifier).2 = Throw TypeError.
Proof. intros Hl Hb. unfold setQuality. by rewrite Hl, Hb. Qed.

(** C9, at the failing input.  The instance the constructor makes for a
    player that has the quality-levels collection but no hls tech has no
    button; on it, choosing an identifier that is not ["auto"] and is the
    identifier of no level sets [enabled] to [false] on every level and
    then raises a [TypeError] at [this._qualityButton.unpressButton()],
    where [onAddQualityLevel] tests [this._qualityButton] first. *)
Theorem setQuality_raises_on_inert_instance (d : Options) (p : Player)
    (options : option obj) (_options : obj) (levels : list obj) (identifier : val) :
  qualityLevels p = Some levels →
  hls p = false →
  identifier ≠ VStr "auto" →
  (∀ quality, quality ∈ levels →
     getIdentifierFromLevel _options quality false ≠ identifier) →
  _qualityButton (constructor d p options).2 = None
  ∧ (setQuality _options (constructor d p options).2 identifier).2 = Throw TypeError
  ∧ ∃ levels',
      qualityLevels
        (player (setQuality _options (constructor d p options).2 identifier).1)
        = Some levels'
      ∧ length levels' = length levels
      ∧ Forall (λ quality, get quality "enabled" = VBool false) levels'.
Proof.
  intros Hl Hhls Hauto Hnone.
  assert (_qualityButton (constructor d p options).2 = None) as Hb.
  { simpl. rewrite Hhls. by rewrite andb_false_r. }
  split; [done|]. split.
  - by apply (setQuality_without_button _ _ levels).
  - exists (set_enabled _options identifier <$> levels).
    split; [by apply setQuality_levels|]. split; [by rewrite length_fmap|].
    apply Forall_fmap, Forall_forall. intros quality Hq. simpl.
    unfold set_enabled, get, strict_eq. rewrite lookup_insert_eq. simpl.
    rewrite !bool_decide_eq_false_2; [done|done|by apply Hnone].
Qed.

(** ** Determinism of reconciliation *)

(** C7.  [onAddQualityLevel] leaves the player and its collection as they
    are, and a second call right after the first ends in the same plugin
    state, with the same installed list, and completes the same way. *)
Theorem onAddQualityLevel_idempotent (_options : obj) (this : HlsQualitySelectorPlugin) :
  player (onAddQualityLevel _options this).1 = player this
  ∧ onAddQualityLevel _options (onAddQualityLevel _options this).1
    = onAddQualityLevel _options this
  ∧ menu (onAddQualityLevel _options (onAddQualityLevel _options this).1).1
    = menu (onAddQualityLevel _options this).1.
Proof.
  assert (onAddQualityLevel _options (onAddQualityLevel _options this).1
          = onAddQualityLevel _options this) as Hsame.
  { unfold onAddQualityLevel.
    destruct (qualityLevels (player this)) as [levels|] eqn:Hl; simpl;
      [|by rewrite Hl].
    destruct (buildLevelItems _options (player this) levels) as [levelItems|e] eqn:Hb;
      simpl; [|by rewrite Hl, Hb].
    destruct (_qualityButton this) as [b|] eqn:Hq; simpl.
    - by rewrite Hl, Hb.
    - by rewrite Hl, Hb, Hq. }
  split; [|split; [done|by rewrite Hsame]].
  unfold onAddQualityLevel.
  destruct (qualityLevels (player this)); [|done].
  destruct (buildLevelItems _ _ _); [|done].
  by destruct (_qualityButton this).
Qed.

(** ** The sort comparator *)

(** C8, amended.  When one of the two arguments is not an object the
    comparator raises nothing and returns -1; on two objects that carry an
    item it raises nothing and returns -1, 1 or 0 as the value of the first
    is below, above or neither. *)
Theorem comparator_defensive :
  (∀ current next : entry,
     entry_typeof current ≠ "object" ∨ entry_typeof next ≠ "object" →
     comparator current next = Ok (-1))
  ∧ (∀ current next : MenuItemDescriptor,
       comparator (Object (Some current)) (Object (Some next)) =
       Ok (if js_lt (value current) (value next) then -1
           else if js_gt (value current) (value next) then 1 else 0)).
Proof.
  split.
  - intros current next Hshape. unfold comparator.
    destruct (String.eqb_spec (entry_typeof current) "object"),
      (String.eqb_spec (entry_typeof next) "object"); simpl; try done.
    by destruct Hshape.
  - intros current next. unfold comparator. simpl.
    destruct (js_lt _ _); [done|]. by destruct (js_gt _ _).
Qed.

End SelectorFacts.

(** ** Construction *)

(** C10.  The constructor writes the options it is given into [defaults]:
    a property of the options of one construction is a property of
    [defaults] after it, and still after a next construction that is given
    no options, or empty ones.  Starting from the initial [defaults],
    constructing with [identifyBy: 'bitrate'] and then with no options
    leaves [identifyBy] at ['bitrate'], not at ['height']. *)
Theorem constructor_mutates_defaults :
  (∀ (d : Options) (p1 p2 : Player) (options : obj) (k : string) (v : val),
     options !! k = Some v → k ≠ "parent" →
     let d1 := (constructor d p1 (Some options)).1 in
     props d1 !! k = Some v
     ∧ props (constructor d1 p2 None).1 !! k = Some v
     ∧ props (constructor d1 p2 (Some ∅)).1 !! k = Some v)
  ∧ (∀ p1 p2 : Player,
       get (props defaults) "identifyBy" = VStr "height"
       ∧ get (props (constructor defaults p1 (Some by_bitrate)).1) "identifyBy"
         = VStr "bitrate"
       ∧ get (props (constructor (constructor defaults p1 (Some by_bitrate)).1
                       p2 None).1) "identifyBy"
         = VStr "bitrate").
Proof.
  split; [|by intros; vm_compute].
  intros d p1 p2 options k v Hk Hparent. simpl.
  assert (delete "parent" (options ∪ props d) !! k = Some v) as Hd1.
  { rewrite lookup_delete_ne by done. by apply lookup_union_Some_l. }
  split; [done|].
  split; rewrite lookup_delete_ne by done.
  - done.
  - rewrite lookup_union_r; [done|apply lookup_empty].
Qed.

(** * Closed instances *)

Section Instances.
#[local] Existing Instance no_numeric_strings.

Local Abbreviation heights ns := (level_with "height" <$> ns).



(** The statement of C2 at the heights [720, 720, 1080]. *)
Lemma onAddQualityLevel_no_duplicates_witness :
  qualityLevels (player (plugin_with (heights [720; 720; 1080])))
    = Some (heights [720; 720; 1080])
  ∧ _qualityButton (plugin_with (heights [720; 720; 1080])) = Some new_ConcreteButton
  ∧ ∃ real,
      menu (onAddQualityLevel (props defaults)
              (plugin_with (heights [720; 720; 1080]))).1
        = Some (real ++ [auto_item (player (plugin_with (heights [720; 720; 1080])))])
      ∧ NoDup (item_values real)
      ∧ item_values (fold_left (add_level (props defaults)) (heights [720; 720; 1080]) [])
          = first_occurrences []
              ((λ level, getIdentifierFromLevel (props defaults) level false)
                 <$> heights [720; 720; 1080])
      ∧ real ≡ₚ fold_left (add_level (props defaults)) (heights [720; 720; 1080]) [].
Proof.
  split; [reflexivity|]. split; [reflexivity|].
  exact (proj1 (@onAddQualityLevel_no_duplicates no_numeric_strings)
           (props defaults) (plugin_with (heights [720; 720; 1080]))
           (heights [720; 720; 1080]) new_ConcreteButton eq_refl eq_refl).
Defined.

(** C3 as the specification words it fails at 1000500: after one division
    the value is 1000.5, whose floor does not exceed 1000, so the code stops
    at ["1000kbps"] where the specification divides once more. *)
Lemma bitrate_format_is_not_spec :
  getIdentifierFromLevel by_bitrate (level_with "bitrate" 1000500) false = VNum 1000500
  ∧ getIdentifierFromLevel by_bitrate (level_with "bitrate" 1000500) true
    = VStr "1000kbps"
  ∧ spec_format_bitrate 1000500 = "1Mbps"
  ∧ getIdentifierFromLevel by_bitrate (level_with "bitrate" 1000500) true
    ≠ VStr (spec_format_bitrate 1000500).
Proof.
  split; [by vm_compute|]. split; [by vm_compute|]. split; [by vm_compute|].
  vm_compute. discriminate.
Qed.

(** The statement of C3, amended, at 2500000. *)
Lemma getIdentifierFromLevel_bitrate_format_witness :
  get by_bitrate "identifyBy" = VStr "bitrate"
  ∧ getIdentifierFromLevel by_bitrate (level_with "bitrate" 2500000) false = VNum 2500000
  ∧ 2500000 < 1001 * 10 ^ 12
  ∧ getIdentifierFromLevel by_bitrate (level_with "bitrate" 2500000) true
    = VStr (floor_format_bitrate 2500000).
Proof.
  split; [reflexivity|]. split; [reflexivity|]. split; [reflexivity|].
  apply (@getIdentifierFromLevel_bitrate_format no_numeric_strings
           by_bitrate (level_with "bitrate" 2500000) 2500000);
    reflexivity.
Defined.

(** C4 as stated fails at 1000000000: two divisions give 1000, which does
    not exceed 1000, so the label is ["1000Mbps"] and not ["1Gbps"]. *)
Lemma bitrate_1e9_is_not_1Gbps :
  getIdentifierFromLevel by_bitrate (level_with "bitrate" 1000000000) true
    = VStr "1000Mbps"
  ∧ getIdentifierFromLevel by_bitrate (level_with "bitrate" 1000000000) true
    ≠ VStr "1Gbps".
Proof. split; [by vm_compute|]. vm_compute. discriminate. Qed.

(** The statement of C4, amended, at a level with bitrate 2500000. *)
Lemma getIdentifierFromLevel_bitrate_examples_witness :
  get by_bitrate "identifyBy" = VStr "bitrate"
  ∧ getIdentifierFromLevel by_bitrate (level_with "bitrate" 2500000) false = VNum 2500000
  ∧ getIdentifierFromLevel by_bitrate (level_with "bitrate" 2500000) true = VStr "2Mbps".
Proof.
  split; [reflexivity|]. split; [reflexivity|].
  apply (proj1 (@getIdentifierFromLevel_bitrate_examples no_numeric_strings
                  by_bitrate (level_with "bitrate" 2500000) eq_refl)).
  reflexivity.
Defined.

(** The statement of C5 at the heights [480, 720, 1080] and the choice
    720. *)
Lemma setQuality_enabled_witness :
  qualityLevels (player (plugin_with (heights [480; 720; 1080])))
    = Some (heights [480; 720; 1080])
  ∧ ∃ levels',
      qualityLevels (player (setQuality (props defaults)
                               (plugin_with (heights [480; 720; 1080])) (VNum 720)).1)
        = Some levels'
      ∧ length levels' = length (heights [480; 720; 1080])
      ∧ ∀ i quality, heights [480; 720; 1080] !! i = Some quality →
          ∃ quality', levels' !! i = Some quality'
            ∧ get quality' "enabled" =
                VBool (bool_decide
                  (getIdentifierFromLevel (props defaults) quality false = VNum 720
                   ∨ VNum 720 = VStr "auto"))
            ∧ ∀ k, k ≠ "enabled" → quality' !! k = quality !! k.
Proof.
  split; [reflexivity|].
  exact (proj1 (@setQuality_enabled no_numeric_strings)
           (props defaults) (plugin_with (heights [480; 720; 1080]))
           (heights [480; 720; 1080]) (VNum 720) eq_refl).
Defined.

(** The statement of C6 at a level whose bitrate is 0: its identifier by
    bitrate is its height. *)
Lemma getIdentifierFromLevel_fallback_witness :
  ({[ "bitrate" := VNum 0; "height" := VNum 720 ]} : obj) !! "bitrate" = Some (VNum 0)
  ∧ getIdentifierFromLevel by_bitrate {[ "bitrate" := VNum 0; "height" := VNum 720 ]} false
    = get {[ "bitrate" := VNum 0; "height" := VNum 720 ]} "height".
Proof.
  split; [reflexivity|].
  apply (proj2 (proj2 (proj2 (@getIdentifierFromLevel_fallback no_numeric_strings
           by_bitrate {[ "bitrate" := VNum 0; "height" := VNum 720 ]})))).
  reflexivity.
Defined.

(** C8 as stated fails on an object without [item]: reading
    [current.item.value] raises. *)
Lemma comparator_raises_without_item :
  entry_typeof (Object None) = "object"
  ∧ comparator (Object None)
      (Object (Some {| label := VStr "720p"; value := VNum 720; selected := None |}))
    = Throw TypeError
  ∧ comparator (Object None)
      (Object (Some {| label := VStr "720p"; value := VNum 720; selected := None |}))
    ≠ Ok (-1).
Proof. split; [reflexivity|]. split; [reflexivity|]. vm_compute. discriminate. Qed.

(** The statement of C8, amended, at a number compared with an object. *)
Lemma comparator_defensive_witness :
  (entry_typeof (Primitive (VNum 720)) ≠ "object"
   ∨ entry_typeof (Object None) ≠ "object")
  ∧ comparator (Primitive (VNum 720)) (Object None) = Ok (-1).
Proof.
  assert (entry_typeof (Primitive (VNum 720)) ≠ "object"
          ∨ entry_typeof (Object None) ≠ "object") as Hshape.
  { left. vm_compute. discriminate. }
  split; [exact Hshape|].
  exact (proj1 (@comparator_defensive no_numeric_strings)
           (Primitive (VNum 720)) (Object None) Hshape).
Defined.

(** The statement of C9 at the heights [480, 720, 1080] and the choice
    360. *)
Lemma setQuality_no_match_witness :
  qualityLevels (player (plugin_with (heights [480; 720; 1080])))
    = Some (heights [480; 720; 1080])
  ∧ _qualityButton (plugin_with (heights [480; 720; 1080])) = Some new_ConcreteButton
  ∧ VNum 360 ≠ VStr "auto"
  ∧ (∀ quality, quality ∈ heights [480; 720; 1080] →
       getIdentifierFromLevel (props defaults) quality false ≠ VNum 360)
  ∧ (setQuality (props defaults) (plugin_with (heights [480; 720; 1080])) (VNum 360)).2
    = Ok VUndefined
  ∧ ∃ levels',
      qualityLevels (player (setQuality (props defaults)
                               (plugin_with (heights [480; 720; 1080])) (VNum 360)).1)
        = Some levels'
      ∧ length levels' = length (heights [480; 720; 1080])
      ∧ Forall (λ quality, get quality "enabled" = VBool false) levels'.
Proof.
  assert (∀ quality, quality ∈ heights [480; 720; 1080] →
            getIdentifierFromLevel (props defaults) quality false ≠ VNum 360) as Hnone.
  { intros quality Hq. simpl in Hq.
    repeat (apply elem_of_cons in Hq as [->|Hq]; [vm_compute; discriminate|]).
    by apply elem_of_nil in Hq. }
  assert (VNum 360 ≠ VStr "auto") as Hauto by discriminate.
  split; [reflexivity|]. split; [reflexivity|]. split; [exact Hauto|].
  split; [exact Hnone|].
  exact (@setQuality_no_match no_numeric_strings
           (props defaults) (plugin_with (heights [480; 720; 1080]))
           (heights [480; 720; 1080]) new_ConcreteButton (VNum 360)
           eq_refl eq_refl Hauto Hnone).
Defined.

(** C9 at a failing input: a player with the heights [480, 720, 1080] and
    no hls tech, and the choice 360. *)
Lemma setQuality_raises_on_inert_instance_witness :
  let p := {| qualityLevels := Some (heights [480; 720; 1080]); hls := false;
              controlBar := controlBar_ref 0; localize := λ s, s |} in
  qualityLevels p = Some (heights [480; 720; 1080])
  ∧ hls p = false
  ∧ VNum 360 ≠ VStr "auto"
  ∧ (∀ quality, quality ∈ heights [480; 720; 1080] →
       getIdentifierFromLevel (props defaults) quality false ≠ VNum 360)
  ∧ _qualityButton (constructor defaults p None).2 = None
  ∧ (setQuality (props defaults) (constructor defaults p None).2 (VNum 360)).2
    = Throw TypeError
  ∧ ∃ levels',
      qualityLevels
        (player (setQuality (props defaults) (constructor defaults p None).2
                   (VNum 360)).1)
        = Some levels'
      ∧ length levels' = length (heights [480; 720; 1080])
      ∧ Forall (λ quality, get quality "enabled" = VBool false) levels'.
Proof.
  intros p.
  assert (∀ quality, quality ∈ heights [480; 720; 1080] →
            getIdentifierFromLevel (props defaults) quality false ≠ VNum 360) as Hnone.
  { intros quality Hq. simpl in Hq.
    repeat (apply elem_of_cons in Hq as [->|Hq]; [vm_compute; discriminate|]).
    by apply elem_of_nil in Hq. }
  assert (VNum 360 ≠ VStr "auto") as Hauto by discriminate.
  split; [reflexivity|]. split; [reflexivity|]. split; [exact Hauto|].
  split; [exact Hnone|].
  exact (@setQuality_raises_on_inert_instance no_numeric_strings defaults p None
           (props defaults) (heights [480; 720; 1080]) (VNum 360)
           eq_refl eq_refl Hauto Hnone).
Defined.

(** The statement of C10 at the options [identifyBy: 'bitrate']. *)
Lemma constructor_mutates_defaults_witness :
  by_bitrate !! "identifyBy" = Some (VStr "bitrate")
  ∧ "identifyBy" ≠ "parent"
  ∧ props (constructor defaults (player_with []) (Some by_bitrate)).1 !! "identifyBy"
    = Some (VStr "bitrate")
  ∧ props (constructor (constructor defaults (player_with []) (Some by_bitrate)).1
             (player_with []) None).1 !! "identifyBy"
    = Some (VStr "bitrate")
  ∧ props (constructor (constructor defaults (player_with []) (Some by_bitrate)).1
             (player_with []) (Some ∅)).1 !! "identifyBy"
    = Some (VStr "bitrate").
Proof.
  assert ("identifyBy" ≠ "parent") as Hne by discriminate.
  split; [reflexivity|]. split; [exact Hne|].
  exact (proj1 constructor_mutates_defaults
           defaults (player_with []) (player_with []) by_bitrate
           "identifyBy" (VStr "bitrate") eq_refl Hne).
Defined.

End Instances.

(** * Further properties of the plugin *)

Section Formatting.
Context `{Runtime}.

Lemma Qfloor_div_1e3 (q : Q) : Qfloor (q / 1000) = Qfloor q / 1000.
Proof.
  destruct q as [a b]. unfold Qdiv, Qmult, Qinv. simpl.
  rewrite Z.mul_1_r, Pos2Z.inj_mul.
  rewrite Z.div_div; [reflexivity|lia|lia].
Qed.

(** The loop in integers: from the state [(q, k)] with [floor q = n / 1000^k]
    it ends at some [(q', k')] with [floor q' = n / 1000^k'], where every
    state passed had a floor above 1000, and the end state has its floor at
    most 1000 unless [k' = mags.length]. *)
Lemma scale_integers (n : Z) (fuel : nat) (q : Q) (k : nat) :
  (k ≤ 5)%nat → (5 - k < fuel)%nat →
  Qfloor q = n / 1000 ^ Z.of_nat k →
  ∃ q' k',
    scale fuel (Fin q) k = (Fin q', k')
    ∧ Qfloor q' = n / 1000 ^ Z.of_nat k'
    ∧ (k ≤ k' ≤ 5)%nat
    ∧ (∀ j, (k ≤ j < k')%nat → 1000 < n / 1000 ^ Z.of_nat j)
    ∧ ((k' < 5)%nat → n / 1000 ^ Z.of_nat k' ≤ 1000).
Proof.
  revert q k. induction fuel as [|fuel IH]; intros q k Hk Hfuel Hq; [lia|].
  cbn [scale]. change (floor_gt_1e3 (Fin q)) with (1000 <? Qfloor q).
  change (div_1e3 (Fin q)) with (Fin (q / 1000)).
  destruct (Z.ltb_spec 1000 (Qfloor q)) as [Hgt|Hle];
    [destruct (decide (k < 5)%nat) as [Hlt|Hge]|].
  - rewrite (bool_decide_eq_true_2 (k < length mags)%nat Hlt). cbn [andb].
    destruct (IH (q / 1000)%Q (S k)) as (q' & k' & Hs & Hq' & Hk' & Hpass & Hend);
      [lia|lia| |].
    { assert (0 < 1000 ^ Z.of_nat k) by (apply Z.pow_pos_nonneg; lia).
      rewrite Qfloor_div_1e3, Hq, Nat2Z.inj_succ, Z.pow_succ_r by lia.
      rewrite Z.div_div by lia. f_equal. lia. }
    exists q', k'. split; [exact Hs|]. split; [done|]. split; [lia|]. split; [|done].
    intros j Hj. destruct (decide (j = k)) as [->|Hne]; [by rewrite <- Hq|].
    apply Hpass. lia.
  - rewrite (bool_decide_eq_false_2 (k < length mags)%nat Hge). cbn [andb].
    exists q, k. split; [done|]. split; [done|]. split; [lia|].
    split; intros; lia.
  - cbn [andb]. exists q, k. split; [done|]. split; [done|]. split; [lia|].
    split; [intros; lia|]. intros _. by rewrite <- Hq.
Qed.

Lemma format_bitrate_integers (n : Z) :
  ∃ q k,
    scale scale_fuel (Fin (inject_Z n)) 0 = (Fin q, k)
    ∧ Qfloor q = n / 1000 ^ Z.of_nat k
    ∧ (k ≤ 5)%nat
    ∧ (∀ j, (j < k)%nat → 1000 < n / 1000 ^ Z.of_nat j)
    ∧ ((k < 5)%nat → n / 1000 ^ Z.of_nat k ≤ 1000).
Proof.
  destruct (scale_integers n scale_fuel (inject_Z n) 0)
    as (q & k & Hs & Hq & Hk & Hpass & Hend).
  - lia.
  - unfold scale_fuel. simpl. lia.
  - change (1000 ^ Z.of_nat 0) with 1. by rewrite Qfloor_Z, Z.div_1_r.
  - exists q, k. split; [done|]. split; [done|]. split; [lia|].
    split; [|done]. intros j Hj. apply Hpass. lia.
Qed.

(** X1.  With the discriminator ["bitrate"], the label of a numeric
    identifier [n] below 1001e12 is the integer quotient [n / 1000^k], the
    [k]-th suffix of [mags] and ["bps"], where [k ≤ 4] is the first exponent
    at which the quotient is at most 1000: the number shown never exceeds
    1000, and is at least 1 once a suffix is used. *)
Theorem bitrate_label_quotient (_options level : obj) (n : Z) :
  get _options "identifyBy" = VStr "bitrate" →
  getIdentifierFromLevel _options level false = VNum n →
  n < 1001 * 10 ^ 12 →
  ∃ (k : nat) (suffix : string),
    mags !! k = Some suffix
    ∧ getIdentifierFromLevel _options level true
      = VStr (pretty (n / 1000 ^ Z.of_nat k) +:+ suffix +:+ "bps")
    ∧ n / 1000 ^ Z.of_nat k ≤ 1000
    ∧ (∀ j, (j < k)%nat → 1000 < n / 1000 ^ Z.of_nat j)
    ∧ (k ≠ 0%nat → 1 ≤ n / 1000 ^ Z.of_nat k).
Proof.
  intros Hby Hid Hn.
  rewrite (getIdentifierFromLevel_bitrate _ _ Hby), Hid.
  destruct (format_bitrate_integers n) as (q & k & Hs & Hq & Hk & Hpass & Hend).
  assert (k < 5)%nat as Hk4.
  { destruct (decide (k = 5%nat)) as [->|]; [|lia].
    specialize (Hpass 4%nat ltac:(lia)).
    assert (n / 1000 ^ Z.of_nat 4 ≤ 1000); [|lia].
    apply Z.lt_succ_r, Z.div_lt_upper_bound; [done|]. simpl. lia. }
  assert (∃ suffix, mags !! k = Some suffix) as [suffix Hsuffix].
  { apply lookup_lt_is_Some. simpl. lia. }
  exists k, suffix. split; [done|]. split; [|split; [by apply Hend|split; [done|]]].
  - unfold format_bitrate. simpl ToNumber. rewrite Hs.
    unfold bitrate_label, floor_ToString. simpl Math_floor. by rewrite Hsuffix, Hq.
  - intros Hk0. destruct k as [|k]; [done|].
    specialize (Hpass k ltac:(lia)).
    assert (0 < 1000 ^ Z.of_nat k) by (apply Z.pow_pos_nonneg; lia).
    rewrite Nat2Z.inj_succ, Z.pow_succ_r, Z.mul_comm, <- Z.div_div by lia.
    apply Z.div_le_lower_bound; lia.
Qed.

(** X2.  With the discriminator ["bitrate"], every numeric identifier from
    1001e12 on is labelled ["NaNbps"]: the loop makes a fifth division and
    [mags[5]] is [undefined]. *)
Theorem bitrate_label_past_mags (_options level : obj) (n : Z) :
  get _options "identifyBy" = VStr "bitrate" →
  getIdentifierFromLevel _options level false = VNum n →
  1001 * 10 ^ 12 ≤ n →
  getIdentifierFromLevel _options level true = VStr "NaNbps".
Proof.
  intros Hby Hid Hn.
  rewrite (getIdentifierFromLevel_bitrate _ _ Hby), Hid.
  destruct (format_bitrate_integers n) as (q & k & Hs & Hq & Hk & Hpass & Hend).
  assert (k = 5%nat) as ->.
  { destruct (decide (k < 5)%nat) as [Hlt|]; [|lia].
    specialize (Hend Hlt).
    assert (1001 ≤ n / 1000 ^ Z.of_nat k); [|lia].
    etrans; [|apply Z.div_le_compat_l with (r := 1000 ^ 4); [lia|]].
    - apply Z.div_le_lower_bound; [done|]. simpl. lia.
    - split; [apply Z.pow_pos_nonneg; lia|].
      apply Z.pow_le_mono_r; lia. }
  unfold format_bitrate. simpl ToNumber. by rewrite Hs.
Qed.

(** X3.  A level that has neither a truthy discriminator field nor a
    [height] has the identifier [undefined]; its label is ["NaNbps"] by
    bitrate, ["undefinedp"] by height, and [undefined] by any other
    discriminator. *)
Theorem getIdentifierFromLevel_missing (_options level : obj) :
  ToBoolean (get level (ToString (get _options "identifyBy"))) = false →
  level !! "height" = None →
  getIdentifierFromLevel _options level false = VUndefined
  ∧ (get _options "identifyBy" = VStr "bitrate" →
     getIdentifierFromLevel _options level true = VStr "NaNbps")
  ∧ (get _options "identifyBy" = VStr "height" →
     getIdentifierFromLevel _options level true = VStr "undefinedp")
  ∧ (get _options "identifyBy" ≠ VStr "bitrate" →
     get _options "identifyBy" ≠ VStr "height" →
     getIdentifierFromLevel _options level true = VUndefined).
Proof.
  intros Hfalsy Hheight.
  assert (getIdentifierFromLevel _options level false = VUndefined) as Hid.
  { rewrite getIdentifierFromLevel_unformatted. unfold js_or. rewrite Hfalsy.
    unfold get. by rewrite Hheight. }
  split; [done|]. split; [|split].
  - intros Hby. by rewrite (getIdentifierFromLevel_bitrate _ _ Hby), Hid.
  - intros Hby. rewrite getIdentifierFromLevel_unformatted in Hid.
    unfold getIdentifierFromLevel. cbv zeta. by rewrite Hid, Hby.
  - intros Hb Hh. rewrite getIdentifierFromLevel_unformatted in Hid.
    unfold getIdentifierFromLevel, strict_eq. cbv zeta.
    by rewrite Hid, !bool_decide_eq_false_2.
Qed.

(** X4.  With the discriminator ["height"] the fallback changes nothing: the
    identifier is the [height] property as it is, 0 included, and the
    label is its string followed by ["p"]. *)
Theorem getIdentifierFromLevel_height (_options level : obj) :
  get _options "identifyBy" = VStr "height" →
  getIdentifierFromLevel _options level false = get level "height"
  ∧ getIdentifierFromLevel _options level true
    = VStr (ToString (get level "height") +:+ "p").
Proof.
  intros Hby.
  assert (getIdentifierFromLevel _options level false = get level "height") as Hid.
  { rewrite getIdentifierFromLevel_unformatted, Hby. unfold js_or. simpl.
    by destruct (ToBoolean _). }
  split; [done|]. rewrite getIdentifierFromLevel_unformatted in Hid.
  unfold getIdentifierFromLevel. cbv zeta. by rewrite Hid, Hby.
Qed.

(** X5.  The label of a level depends on the level only through its
    identifier: two levels with the same identifier have the same label,
    whatever the options. *)
Theorem label_determined_by_identifier (_options level1 level2 : obj) :
  getIdentifierFromLevel _options level1 false
    = getIdentifierFromLevel _options level2 false →
  getIdentifierFromLevel _options level1 true
    = getIdentifierFromLevel _options level2 true.
Proof.
  rewrite !getIdentifierFromLevel_unformatted. intros Hid.
  unfold getIdentifierFromLevel. cbv zeta. by rewrite Hid.
Qed.

End Formatting.

Section Reconciliation.
Context `{Runtime}.

Local Abbreviation ids _options levels :=
  ((λ level, getIdentifierFromLevel _options level false) <$> levels).

(** The menu item the loop makes for a level. *)
Local Abbreviation item_of _options level :=
  (getQualityMenuItem
     {| label := getIdentifierFromLevel _options level true;
        value := getIdentifierFromLevel _options level false;
        selected := None |}).

Lemma item_of_identifier (_options level1 level2 : obj) :
  getIdentifierFromLevel _options level1 false
    = getIdentifierFromLevel _options level2 false →
  item_of _options level1 = item_of _options level2.
Proof.
  intros Hid. rewrite Hid. do 2 f_equal.
  rewrite !getIdentifierFromLevel_unformatted in Hid.
  unfold getIdentifierFromLevel. cbv zeta. by rewrite Hid.
Qed.

Lemma walk_items (_options : obj) (levels : list obj)
    (acc : list ConcreteMenuItem) (m : ConcreteMenuItem) :
  m ∈ fold_left (add_level _options) levels acc →
  m ∈ acc ∨ ∃ level, level ∈ levels ∧ m = item_of _options level.
Proof.
  revert acc. induction levels as [|level levels IH]; intros acc; simpl; [by left|].
  intros [Hm|(l & Hl & Hml)]%IH.
  - unfold add_level in Hm. destruct (decide _); [|by left].
    apply elem_of_app in Hm as [Hm|Hm]; [by left|].
    apply list_elem_of_singleton in Hm as ->.
    right. exists level. split; [by left|done].
  - right. exists l. split; [by right|done].
Qed.

Lemma first_occurrences_length (seen ids : list val) :
  (length (first_occurrences seen ids) ≤ length ids)%nat.
Proof.
  revert seen. induction ids as [|v ids IH]; intros seen; simpl; [done|].
  destruct (decide (v ∈ seen)); simpl; [specialize (IH seen)|specialize (IH (seen ++ [v]))];
    lia.
Qed.

Lemma first_occurrences_all (seen ids : list val) :
  NoDup ids → (∀ v, v ∈ ids → v ∉ seen) → first_occurrences seen ids = ids.
Proof.
  revert seen. induction ids as [|v ids IH]; intros seen Hnd Hseen; simpl; [done|].
  apply NoDup_cons in Hnd as [Hv Hnd].
  destruct (decide (v ∈ seen)) as [Hin|_]; [destruct (Hseen v); [by left|done]|].
  f_equal. apply IH; [done|].
  intros w Hw [Hs|Hs]%elem_of_app.
  - apply (Hseen w); [by right|done].
  - apply list_elem_of_singleton in Hs as ->. done.
Qed.

(** The real entries of the list built for a collection. *)
Lemma buildLevelItems_real (_options : obj) (p : Player) (levels : list obj) :
  ∃ real,
    buildLevelItems _options p levels = Ok (real ++ [auto_item p])
    ∧ Array_sort item_comparator (fold_left (add_level _options) levels []) = Ok real
    ∧ item_values real ≡ₚ first_occurrences [] (ids _options levels)
    ∧ ∀ m, m ∈ real → ∃ level, level ∈ levels ∧ m = item_of _options level.
Proof.
  destruct (buildLevelItems_returns _options p levels) as (real & Hb & Hs & Hp).
  exists real. split; [done|]. split; [done|]. split; [by apply real_values|].
  intros m Hm. rewrite Hp in Hm.
  apply walk_items in Hm as [Hm|Hm]; [by apply elem_of_nil in Hm|done].
Qed.

(** X6.  On a plugin with a collection and a button, every real entry of
    the installed list is the item of a level of the collection, with the
    label and the identifier of that level and [selected] unset, and every
    level of the collection has an entry with its identifier. *)
Theorem onAddQualityLevel_entries (_options : obj) (this : HlsQualitySelectorPlugin)
    (levels : list obj) (b : ConcreteButton) :
  qualityLevels (player this) = Some levels →
  _qualityButton this = Some b →
  ∃ real,
    menu (onAddQualityLevel _options this).1 = Some (real ++ [auto_item (player this)])
    ∧ (∀ m, m ∈ real →
         ∃ level, level ∈ levels
           ∧ item m = {| label := getIdentifierFromLevel _options level true;
                         value := getIdentifierFromLevel _options level false;
                         selected := None |})
    ∧ (∀ level, level ∈ levels →
         ∃ m, m ∈ real
           ∧ value (item m) = getIdentifierFromLevel _options level false).
Proof.
  intros Hl Hb.
  destruct (onAddQualityLevel_installs _options this levels b Hl Hb)
    as (levelItems & Hbuild & ->).
  destruct (buildLevelItems_real _options (player this) levels)
    as (real & Hreal & _ & Hvalues & Hitems).
  rewrite Hreal in Hbuild. inversion Hbuild; subst levelItems.
  exists real. split; [done|]. split.
  - intros m Hm. destruct (Hitems m Hm) as (level & Hlevel & ->). by exists level.
  - intros level Hlevel.
    assert (getIdentifierFromLevel _options level false ∈ item_values real) as Hv.
    { rewrite Hvalues. apply first_occurrences_complete.
      - by apply (list_elem_of_fmap_2 (λ l, getIdentifierFromLevel _options l false)).
      - by intros ?%elem_of_nil. }
    apply list_elem_of_fmap in Hv as (m & Hv & Hm). by exists m.
Qed.

(** X7.  The installed list is never empty and has at most one entry per
    level besides Auto; it has exactly one per level when the identifiers of
    the collection are pairwise different. *)
Theorem onAddQualityLevel_length (_options : obj) (this : HlsQualitySelectorPlugin)
    (levels : list obj) (b : ConcreteButton) :
  qualityLevels (player this) = Some levels →
  _qualityButton this = Some b →
  ∃ levelItems,
    menu (onAddQualityLevel _options this).1 = Some levelItems
    ∧ (1 ≤ length levelItems ≤ S (length levels))%nat
    ∧ (NoDup (ids _options levels) → length levelItems = S (length levels)).
Proof.
  intros Hl Hb.
  destruct (onAddQualityLevel_installs _options this levels b Hl Hb)
    as (levelItems & Hbuild & ->).
  destruct (buildLevelItems_real _options (player this) levels)
    as (real & Hreal & _ & Hvalues & _).
  rewrite Hreal in Hbuild. inversion Hbuild; subst levelItems.
  exists (real ++ [auto_item (player this)]). split; [done|].
  assert (length real = length (first_occurrences [] (ids _options levels))) as Hlen.
  { rewrite <- Hvalues. unfold item_values. by rewrite length_fmap. }
  pose proof (first_occurrences_length [] (ids _options levels)) as Hle.
  rewrite length_fmap in Hle.
  rewrite length_app, Hlen. change (length [auto_item (player this)]) with 1%nat.
  split; [lia|].
  intros Hnd. rewrite first_occurrences_all, length_fmap; [lia|done|].
  by intros v _ ?%elem_of_nil.
Qed.

(** X8.  [onAddQualityLevel] raises nothing when the player has the
    quality-levels collection, whatever the levels are; without it the call
    raises a [TypeError] and changes nothing.  In every case the
    subscription is left as it was, and no button is made or removed. *)
Theorem onAddQualityLevel_completion (_options : obj) (this : HlsQualitySelectorPlugin) :
  (is_Some (qualityLevels (player this)) →
   (onAddQualityLevel _options this).2 = Ok VUndefined)
  ∧ (qualityLevels (player this) = None →
     onAddQualityLevel _options this = (this, Throw TypeError))
  ∧ bound (onAddQualityLevel _options this).1 = bound this
  ∧ (is_Some (_qualityButton (onAddQualityLevel _options this).1)
     ↔ is_Some (_qualityButton this)).
Proof.
  unfold onAddQualityLevel.
  destruct (qualityLevels (player this)) as [levels|].
  - destruct (buildLevelItems_returns _options (player this) levels) as (real & -> & _).
    destruct (_qualityButton this) as [b|] eqn:Hb; simpl; rewrite ?Hb;
      (split; [done|]); (split; [done|]); (split; [done|]).
    + split; by eauto.
    + done.
  - split; [by intros [? [=]]|]. done.
Qed.

Lemma values_determine_items (_options : obj) (l1 l2 : list ConcreteMenuItem) :
  (∀ m, m ∈ l1 → ∃ level, m = item_of _options level) →
  (∀ m, m ∈ l2 → ∃ level, m = item_of _options level) →
  item_values l1 = item_values l2 → l1 = l2.
Proof.
  revert l2. induction l1 as [|m1 l1 IH]; intros [|m2 l2] H1 H2 Hv; try done.
  injection Hv as Hm Hv.
  destruct (H1 m1) as [level1 ->]; [by left|].
  destruct (H2 m2) as [level2 ->]; [by left|].
  simpl in Hm. rewrite (item_of_identifier _ _ _ Hm). f_equal.
  apply IH; [|intros m Hm'; apply H2; by right|done].
  intros m Hm'. apply H1. by right.
Qed.

Lemma numeric_real_keys (_options : obj) (levels : list obj)
    (real : list ConcreteMenuItem) :
  Forall (λ v, ∃ n, v = VNum n) (ids _options levels) →
  Array_sort item_comparator (fold_left (add_level _options) levels []) = Ok real →
  item_values real = VNum <$> (numeric_key <$> real)
  ∧ StronglySorted Z.lt (numeric_key <$> real).
Proof.
  intros Hnum Hsort.
  pose proof (Array_sort_perm _ _ _ Hsort) as Hperm.
  pose proof (real_values _ _ _ Hperm) as Hvalues.
  assert (Forall (λ m, ∃ n, value (item m) = VNum n) real) as Hnumreal.
  { apply Forall_forall. intros m Hm.
    assert (value (item m) ∈ first_occurrences [] (ids _options levels)) as Hv.
    { rewrite <- Hvalues. apply (list_elem_of_fmap_2 (λ m, value (item m))), Hm. }
    apply first_occurrences_fresh in Hv as [Hv _].
    rewrite Forall_forall in Hnum. by apply Hnum. }
  assert (item_values real = VNum <$> (numeric_key <$> real)) as Hkeys.
  { unfold item_values. rewrite <- list_fmap_compose.
    apply Forall_fmap_ext_1. eapply Forall_impl; [exact Hnumreal|].
    intros m [n Hn]. unfold numeric_key. simpl. by rewrite Hn. }
  split; [done|]. apply Sorted_le_NoDup_lt.
  - apply (Sorted_fmap _ (λ a b, numeric_key a ≤ numeric_key b)); [done|].
    eapply (Array_sort_sorted item_comparator numeric_key); [|exact Hsort].
    apply item_comparator_numeric.
    apply Forall_forall. intros m Hm. rewrite Forall_forall in Hnumreal.
    apply Hnumreal. by rewrite Hperm.
  - apply (NoDup_fmap_1 VNum). rewrite <- Hkeys, Hvalues.
    apply first_occurrences_NoDup.
Qed.

(** X9.  For numeric identifiers the list built depends only on which
    identifiers occur in the collection: two collections with the same
    identifiers, in any order and with any repetitions, give the same list,
    labels included. *)
Theorem buildLevelItems_order_independent (_options : obj) (p : Player)
    (levels1 levels2 : list obj) :
  Forall (λ v, ∃ n, v = VNum n) (ids _options levels1) →
  (∀ v, v ∈ ids _options levels1 ↔ v ∈ ids _options levels2) →
  buildLevelItems _options p levels1 = buildLevelItems _options p levels2.
Proof.
  intros Hnum1 Hsame.
  assert (Forall (λ v, ∃ n, v = VNum n) (ids _options levels2)) as Hnum2.
  { apply Forall_forall. intros v Hv. rewrite Forall_forall in Hnum1.
    by apply Hnum1, Hsame. }
  destruct (buildLevelItems_real _options p levels1)
    as (real1 & -> & Hs1 & Hv1 & Hi1).
  destruct (buildLevelItems_real _options p levels2)
    as (real2 & -> & Hs2 & Hv2 & Hi2).
  destruct (numeric_real_keys _ _ _ Hnum1 Hs1) as [Hk1 Hsorted1].
  destruct (numeric_real_keys _ _ _ Hnum2 Hs2) as [Hk2 Hsorted2].
  do 2 f_equal. apply (values_determine_items _options).
  - intros m Hm. destruct (Hi1 m Hm) as (level & _ & ->). by exists level.
  - intros m Hm. destruct (Hi2 m Hm) as (level & _ & ->). by exists level.
  - rewrite Hk1, Hk2. f_equal.
    assert (AntiSymm eq Z.lt) by (intros ???; lia).
    apply (StronglySorted_unique Z.lt); [done|done|].
    assert (Inj eq eq VNum) by (by intros ?? [=]).
    apply NoDup_Permutation.
    + apply (NoDup_fmap_1 VNum). rewrite <- Hk1, Hv1. apply first_occurrences_NoDup.
    + apply (NoDup_fmap_1 VNum). rewrite <- Hk2, Hv2. apply first_occurrences_NoDup.
    + intros n.
      rewrite <- !(list_elem_of_fmap_inj VNum), <- Hk1, <- Hk2, Hv1, Hv2. split.
      * intros [Hn _]%first_occurrences_fresh.
        apply first_occurrences_complete; [by apply Hsame|by intros ?%elem_of_nil].
      * intros [Hn _]%first_occurrences_fresh.
        apply first_occurrences_complete; [by apply Hsame|by intros ?%elem_of_nil].
Qed.

End Reconciliation.

Section SelectionFacts.
Context `{Runtime}.

Local Abbreviation ids _options levels :=
  ((λ level, getIdentifierFromLevel _options level false) <$> levels).

(** Writing [enabled] does not change what [getIdentifierFromLevel] reads,
    unless the discriminator is ["enabled"] itself. *)
Lemma getIdentifierFromLevel_set_enabled (_options : obj) (identifier : val)
    (quality : obj) (format : bool) :
  ToString (get _options "identifyBy") ≠ "enabled" →
  getIdentifierFromLevel _options (set_enabled _options identifier quality) format
  = getIdentifierFromLevel _options quality format.
Proof.
  intros Hfield. unfold getIdentifierFromLevel, set_enabled, get.
  by rewrite !lookup_insert_ne.
Qed.

Lemma set_enabled_twice (_options : obj) (identifier1 identifier2 : val)
    (quality : obj) :
  ToString (get _options "identifyBy") ≠ "enabled" →
  set_enabled _options identifier2 (set_enabled _options identifier1 quality)
  = set_enabled _options identifier2 quality.
Proof.
  intros Hfield. unfold set_enabled at 1.
  rewrite getIdentifierFromLevel_set_enabled by done.
  unfold set_enabled. by rewrite insert_insert_eq.
Qed.

(** X10.  [setQuality] returns [undefined] exactly when the player has the
    quality-levels collection and the plugin has its button, and raises a
    [TypeError] otherwise; without the collection it changes nothing. *)
Theorem setQuality_completion (_options : obj) (this : HlsQualitySelectorPlugin)
    (identifier : val) :
  ((setQuality _options this identifier).2 = Ok VUndefined
   ↔ is_Some (qualityLevels (player this)) ∧ is_Some (_qualityButton this))
  ∧ ((setQuality _options this identifier).2 = Ok VUndefined
     ∨ (setQuality _options this identifier).2 = Throw TypeError)
  ∧ (qualityLevels (player this) = None →
     (setQuality _options this identifier).1 = this).
Proof.
  unfold setQuality.
  destruct (qualityLevels (player this)) as [levels|];
    [destruct (_qualityButton this) as [b|]|]; simpl.
  - split; [|split; [by left|done]]. split; [by eauto|done].
  - split; [|split; [by right|done]]. split; [done|]. by intros [_ [? [=]]].
  - split; [|split; [by right|done]]. split; [done|]. by intros [[? [=]] _].
Qed.

(** X11.  When the discriminator is not ["enabled"], the last choice wins:
    choosing one identifier and then another leaves the plugin, its levels
    and the completion as if only the second had been chosen; in
    particular choosing the same identifier twice is choosing it once. *)
Theorem setQuality_last_choice (_options : obj) (this : HlsQualitySelectorPlugin)
    (identifier1 identifier2 : val) :
  ToString (get _options "identifyBy") ≠ "enabled" →
  setQuality _options (setQuality _options this identifier1).1 identifier2
  = setQuality _options this identifier2.
Proof.
  intros Hfield. unfold setQuality.
  destruct (qualityLevels (player this)) as [levels|] eqn:Hl; simpl;
    [|by rewrite Hl].
  assert (set_enabled _options identifier2 <$> (set_enabled _options identifier1 <$> levels)
          = set_enabled _options identifier2 <$> levels) as Hlevels.
  { rewrite <- list_fmap_compose. apply list_fmap_ext. intros _ quality _. simpl.
    by apply set_enabled_twice. }
  destruct (_qualityButton this) as [b|]; simpl; by rewrite Hlevels.
Qed.

Lemma add_level_set_enabled (_options : obj) (identifier : val)
    (levels : list obj) (acc : list ConcreteMenuItem) :
  ToString (get _options "identifyBy") ≠ "enabled" →
  fold_left (add_level _options) (set_enabled _options identifier <$> levels) acc
  = fold_left (add_level _options) levels acc.
Proof.
  intros Hfield. revert acc. induction levels as [|level levels IH]; intros acc;
    simpl; [done|].
  rewrite IH. f_equal. unfold add_level.
  by rewrite !getIdentifierFromLevel_set_enabled.
Qed.

(** X12.  When the discriminator is not ["enabled"], a selection does not
    change the menu: the list [onAddQualityLevel] installs after a
    [setQuality] is the list it installs without it. *)
Theorem setQuality_keeps_menu (_options : obj) (this : HlsQualitySelectorPlugin)
    (identifier : val) :
  ToString (get _options "identifyBy") ≠ "enabled" →
  menu (onAddQualityLevel _options (setQuality _options this identifier).1).1
  = menu (onAddQualityLevel _options this).1.
Proof.
  intros Hfield. unfold setQuality, onAddQualityLevel.
  destruct (qualityLevels (player this)) as [levels|] eqn:Hl; simpl;
    [|by rewrite Hl].
  assert (buildLevelItems _options
            (with_levels (player this) (set_enabled _options identifier <$> levels))
            (set_enabled _options identifier <$> levels)
          = buildLevelItems _options (player this) levels) as Hbuild.
  { unfold buildLevelItems. by rewrite add_level_set_enabled. }
  destruct (buildLevelItems_returns _options (player this) levels)
    as (real & Hreal & _).
  destruct (_qualityButton this) as [b|] eqn:Hb; simpl;
    rewrite Hbuild, Hreal; unfold menu; simpl; by rewrite ?Hb.
Qed.

(** X13.  On a plugin with a button and a collection that is not empty,
    choosing the value of any entry of the installed list, Auto included,
    returns [undefined] and leaves at least one level enabled. *)
Theorem menu_choice_enables_a_level (_options : obj) (this : HlsQualitySelectorPlugin)
    (levels : list obj) (b : ConcreteButton) (levelItems : list ConcreteMenuItem)
    (m : ConcreteMenuItem) :
  qualityLevels (player this) = Some levels →
  _qualityButton this = Some b →
  levels ≠ [] →
  menu (onAddQualityLevel _options this).1 = Some levelItems →
  m ∈ levelItems →
  (setQuality _options (onAddQualityLevel _options this).1 (value (item m))).2
    = Ok VUndefined
  ∧ ∃ quality,
      quality ∈ levels_of
        (setQuality _options (onAddQualityLevel _options this).1 (value (item m))).1
      ∧ get quality "enabled" = VBool true.
Proof.
  intros Hl Hb Hne Hmenu Hm.
  destruct (onAddQualityLevel_installs _options this levels b Hl Hb)
    as (items & Hbuild & Hadd).
  rewrite Hadd in Hmenu |- *. simpl in Hmenu. injection Hmenu as ->.
  unfold setQuality, levels_of. simpl. rewrite Hl. simpl. split; [done|].
  destruct (buildLevelItems_returns _options (player this) levels)
    as (real & Hreal & _ & Hperm).
  rewrite Hreal in Hbuild. injection Hbuild as <-.
  assert (∃ level, level ∈ levels
            ∧ (getIdentifierFromLevel _options level false = value (item m)
               ∨ value (item m) = VStr "auto")) as (level & Hlevel & Hmatch).
  { apply elem_of_app in Hm as [Hm|Hm].
    - assert (value (item m) ∈ first_occurrences [] (ids _options levels)) as Hv.
      { rewrite <- (real_values _ _ _ Hperm).
        apply (list_elem_of_fmap_2 (λ m, value (item m))), Hm. }
      apply first_occurrences_fresh in Hv as [Hv _].
      apply list_elem_of_fmap in Hv as (level & Hv & Hlevel).
      exists level. split; [done|]. by left.
    - apply list_elem_of_singleton in Hm as ->.
      destruct levels as [|level levels]; [done|].
      exists level. split; [by left|]. by right. }
  exists (set_enabled _options (value (item m)) level). split.
  - by apply (list_elem_of_fmap_2 (set_enabled _options (value (item m)))).
  - unfold set_enabled, get, strict_eq. rewrite lookup_insert_eq. simpl. f_equal.
    destruct Hmatch as [Hid|Hauto].
    + by rewrite (bool_decide_eq_true_2 _ Hid).
    + rewrite (bool_decide_eq_true_2 _ Hauto). apply orb_true_r.
Qed.

(** X14.  On two menu items whose values are numbers the comparator is the
    order of the numbers: it returns -1, 0 or 1 as the first is below, equal
    to or above the second, and swapping the arguments negates the
    result. *)
Theorem item_comparator_numbers (current next : ConcreteMenuItem) (a b : Z) :
  value (item current) = VNum a →
  value (item next) = VNum b →
  item_comparator current next
    = Ok (match a ?= b with Lt => -1 | Eq => 0 | Gt => 1 end)
  ∧ ∃ c, item_comparator current next = Ok c
       ∧ item_comparator next current = Ok (- c).
Proof.
  intros Ha Hb.
  assert (∀ (x y : ConcreteMenuItem) (n m : Z),
            value (item x) = VNum n → value (item y) = VNum m →
            item_comparator x y
            = Ok (match n ?= m with Lt => -1 | Eq => 0 | Gt => 1 end)) as Hcmp.
  { intros x y n m Hx Hy. unfold item_comparator, comparator, js_gt. simpl.
    rewrite Hx, Hy, !js_lt_num.
    destruct (Z.compare_spec n m), (Z.ltb_spec n m), (Z.ltb_spec m n);
      done || lia. }
  split; [by apply Hcmp|].
  eexists. split; [by apply Hcmp|]. rewrite (Hcmp next current b a Hb Ha).
  rewrite (Z.compare_antisym a b). by destruct (a ?= b).
Qed.

(** X15.  A menu item whose value is [undefined] (a level without the
    discriminator field and without height) compares as equal with every
    item whose value is a number, on either side, so on such items the
    comparator is not a transitive order: two numbers [a < b] both tie with
    [undefined] and do not tie with each other. *)
Theorem item_comparator_undefined (u current next : ConcreteMenuItem) (a b : Z) :
  value (item u) = VUndefined →
  value (item current) = VNum a →
  value (item next) = VNum b →
  a < b →
  item_comparator current u = Ok 0
  ∧ item_comparator u current = Ok 0
  ∧ item_comparator u next = Ok 0
  ∧ item_comparator current next = Ok (-1).
Proof.
  intros Hu Ha Hb Hab. unfold item_comparator, comparator, js_gt. simpl.
  rewrite Hu, Ha, Hb, js_lt_num. simpl.
  by rewrite (proj2 (Z.ltb_lt a b) Hab).
Qed.

End SelectionFacts.

(** ** Construction, continued *)

(** X16.  The constructor touches only the properties its options name and
    [parent]: every other property of [defaults] keeps its value, [parent]
    holds the player's control bar whatever the options said, and without
    options nothing but [parent] changes. *)
Theorem constructor_frame (d : Options) (p : Player) (options : option obj) :
  (∀ k, k ≠ "parent" → default ∅ options !! k = None →
     props (constructor d p options).1 !! k = props d !! k)
  ∧ props (constructor d p options).1 !! "parent" = None
  ∧ parent (constructor d p options).1 = Some (controlBar p)
  ∧ (options = None → props (constructor d p options).1 = delete "parent" (props d)).
Proof.
  split; [|split; [|split]].
  - intros k Hk Hopt. simpl. rewrite lookup_delete_ne by done.
    destruct options as [options|]; simpl in *; [|done].
    by rewrite lookup_union_r.
  - simpl. apply lookup_delete_eq.
  - done.
  - by intros ->.
Qed.

(** X17.  Constructing again for the same player with the same options
    changes nothing more: [defaults] after the second construction is
    [defaults] after the first. *)
Theorem constructor_twice (d : Options) (p : Player) (options : option obj) :
  (constructor (constructor d p options).1 p options).1
  = (constructor d p options).1.
Proof.
  unfold constructor. simpl. f_equal.
  apply map_eq. intros k.
  destruct (decide (k = "parent")) as [->|Hk]; [by rewrite !lookup_delete_eq|].
  rewrite !lookup_delete_ne by done.
  destruct options as [options|]; simpl; [|by rewrite lookup_delete_ne].
  rewrite !lookup_union, lookup_delete_ne, lookup_union by done.
  by destruct (options !! k), (props d !! k).
Qed.

(** X18.  The feature is gated at construction.  When the player has the
    quality-levels collection and the tech has [hls], the instance the
    constructor makes is subscribed and has a button with no items, and
    [onAddQualityLevel] puts there a list that ends with the Auto entry;
    otherwise the instance is not subscribed and has no button,
    [onAddQualityLevel] installs nothing, and [setQuality] raises a
    [TypeError]. *)
Theorem constructor_gate `{Runtime} (d : Options) (p : Player) (options : option obj)
    (_options : obj) :
  let this := (constructor d p options).2 in
  (is_Some (qualityLevels p) ∧ hls p = true →
   bound this = true
   ∧ menu this = Some []
   ∧ (onAddQualityLevel _options this).2 = Ok VUndefined
   ∧ ∃ real,
       menu (onAddQualityLevel _options this).1 = Some (real ++ [auto_item p]))
  ∧ (¬ (is_Some (qualityLevels p) ∧ hls p = true) →
     bound this = false
     ∧ _qualityButton this = None
     ∧ menu (onAddQualityLevel _options this).1 = None
     ∧ ∀ identifier, (setQuality _options this identifier).2 = Throw TypeError).
Proof.
  simpl. unfold onAddQualityLevel, setQuality, menu. simpl.
  destruct (qualityLevels p) as [levels|]; simpl.
  - destruct (buildLevelItems_returns _options p levels) as (real & Hreal & _).
    change (buildLevelItems _options _ levels)
      with (buildLevelItems _options p levels).
    rewrite Hreal. destruct (hls p); simpl.
    + split; [|by intros []; eauto].
      intros _. split; [done|]. split; [done|]. split; [done|]. by exists real.
    + split; [by intros [_ [=]]|]. done.
  - split; [by intros [[? [=]] _]|]. done.
Qed.

(** X19.  The scaling loop ends within [mags.length] divisions on every
    number: more fuel than [scale_fuel] gives the same state, in which the
    test of the loop is false and [mag] is at most [mags.length]. *)
Theorem scale_terminates (x : number) (extra : nat) :
  scale (scale_fuel + extra) x 0 = scale scale_fuel x 0
  ∧ ((scale scale_fuel x 0).2 ≤ length mags)%nat
  ∧ floor_gt_1e3 (scale scale_fuel x 0).1
      && bool_decide ((scale scale_fuel x 0).2 < length mags)%nat = false.
Proof.
  assert (∀ fuel y mag, (mag ≤ length mags)%nat → (length mags - mag < fuel)%nat →
            scale (fuel + extra) y mag = scale fuel y mag
            ∧ ((scale fuel y mag).2 ≤ length mags)%nat) as Hgen.
  { induction fuel as [|fuel IH]; intros y mag Hmag Hfuel; [lia|]. simpl.
    destruct (floor_gt_1e3 y && bool_decide (mag < 5)%nat) eqn:Htest; [|done].
    apply andb_true_iff in Htest as [_ Hlt%bool_decide_eq_true].
    apply IH; simpl in *; lia. }
  destruct (Hgen scale_fuel x 0%nat) as [Hfuel Hmag];
    [simpl; lia|unfold scale_fuel; lia|].
  split; [done|]. split; [done|].
  pose proof (scale_exit x) as Hexit.
  by destruct (scale scale_fuel x 0).
Qed.

(** * Closed instances of the further properties *)

Section FurtherInstances.
#[local] Existing Instance no_numeric_strings.

Local Abbreviation heights ns := (level_with "height" <$> ns).

Lemma bitrate_label_quotient_witness :
  get by_bitrate "identifyBy" = VStr "bitrate"
  ∧ getIdentifierFromLevel by_bitrate (level_with "bitrate" 2500000) false = VNum 2500000
  ∧ 2500000 < 1001 * 10 ^ 12
  ∧ ∃ (k : nat) (suffix : string),
      mags !! k = Some suffix
      ∧ getIdentifierFromLevel by_bitrate (level_with "bitrate" 2500000) true
        = VStr (pretty (2500000 / 1000 ^ Z.of_nat k) +:+ suffix +:+ "bps")
      ∧ 2500000 / 1000 ^ Z.of_nat k ≤ 1000
      ∧ (∀ j, (j < k)%nat → 1000 < 2500000 / 1000 ^ Z.of_nat j)
      ∧ (k ≠ 0%nat → 1 ≤ 2500000 / 1000 ^ Z.of_nat k).
Proof.
  split; [reflexivity|]. split; [reflexivity|]. split; [reflexivity|].
  exact (@bitrate_label_quotient no_numeric_strings by_bitrate
           (level_with "bitrate" 2500000) 2500000 eq_refl eq_refl eq_refl).
Defined.

Lemma bitrate_label_past_mags_witness :
  get by_bitrate "identifyBy" = VStr "bitrate"
  ∧ getIdentifierFromLevel by_bitrate (level_with "bitrate" 1001000000000000) false
    = VNum 1001000000000000
  ∧ 1001 * 10 ^ 12 ≤ 1001000000000000
  ∧ getIdentifierFromLevel by_bitrate (level_with "bitrate" 1001000000000000) true
    = VStr "NaNbps".
Proof.
  assert (1001 * 10 ^ 12 ≤ 1001000000000000) as Hn by (vm_compute; discriminate).
  split; [reflexivity|]. split; [reflexivity|]. split; [exact Hn|].
  exact (@bitrate_label_past_mags no_numeric_strings by_bitrate
           (level_with "bitrate" 1001000000000000) 1001000000000000
           eq_refl eq_refl Hn).
Defined.

Lemma getIdentifierFromLevel_missing_witness :
  ToBoolean (get (∅ : obj) (ToString (get by_bitrate "identifyBy"))) = false
  ∧ (∅ : obj) !! "height" = None
  ∧ getIdentifierFromLevel by_bitrate ∅ false = VUndefined
  ∧ (get by_bitrate "identifyBy" = VStr "bitrate" →
     getIdentifierFromLevel by_bitrate ∅ true = VStr "NaNbps").
Proof.
  assert (ToBoolean (get (∅ : obj) (ToString (get by_bitrate "identifyBy"))) = false)
    as Hfalsy by reflexivity.
  assert ((∅ : obj) !! "height" = None) as Hheight by reflexivity.
  split; [exact Hfalsy|]. split; [exact Hheight|].
  destruct (@getIdentifierFromLevel_missing no_numeric_strings by_bitrate ∅
              Hfalsy Hheight) as (Hid & Hbitrate & _).
  split; [exact Hid|exact Hbitrate].
Defined.

Lemma getIdentifierFromLevel_height_witness :
  get (props defaults) "identifyBy" = VStr "height"
  ∧ getIdentifierFromLevel (props defaults) (level_with "height" 720) false
    = get (level_with "height" 720) "height"
  ∧ getIdentifierFromLevel (props defaults) (level_with "height" 720) true
    = VStr (ToString (get (level_with "height" 720) "height") +:+ "p").
Proof.
  split; [reflexivity|].
  exact (@getIdentifierFromLevel_height no_numeric_strings (props defaults)
           (level_with "height" 720) eq_refl).
Defined.

Lemma label_determined_by_identifier_witness :
  getIdentifierFromLevel by_bitrate {[ "bitrate" := VNum 2500000; "height" := VNum 720 ]} false
    = getIdentifierFromLevel by_bitrate {[ "bitrate" := VNum 2500000; "height" := VNum 1080 ]} false
  ∧ getIdentifierFromLevel by_bitrate {[ "bitrate" := VNum 2500000; "height" := VNum 720 ]} true
    = getIdentifierFromLevel by_bitrate {[ "bitrate" := VNum 2500000; "height" := VNum 1080 ]} true.
Proof.
  split; [reflexivity|].
  exact (@label_determined_by_identifier no_numeric_strings by_bitrate
           {[ "bitrate" := VNum 2500000; "height" := VNum 720 ]}
           {[ "bitrate" := VNum 2500000; "height" := VNum 1080 ]} eq_refl).
Defined.

Lemma onAddQualityLevel_entries_witness :
  qualityLevels (player (plugin_with (heights [720; 720; 1080])))
    = Some (heights [720; 720; 1080])
  ∧ _qualityButton (plugin_with (heights [720; 720; 1080])) = Some new_ConcreteButton
  ∧ ∃ real,
      menu (onAddQualityLevel (props defaults)
              (plugin_with (heights [720; 720; 1080]))).1
        = Some (real ++ [auto_item (player (plugin_with (heights [720; 720; 1080])))])
      ∧ (∀ m, m ∈ real →
           ∃ level, level ∈ heights [720; 720; 1080]
             ∧ item m = {| label := getIdentifierFromLevel (props defaults) level true;
                           value := getIdentifierFromLevel (props defaults) level false;
                           selected := None |})
      ∧ (∀ level, level ∈ heights [720; 720; 1080] →
           ∃ m, m ∈ real
             ∧ value (item m) = getIdentifierFromLevel (props defaults) level false).
Proof.
  split; [reflexivity|]. split; [reflexivity|].
  exact (@onAddQualityLevel_entries no_numeric_strings (props defaults)
           (plugin_with (heights [720; 720; 1080])) (heights [720; 720; 1080])
           new_ConcreteButton eq_refl eq_refl).
Defined.

Lemma onAddQualityLevel_length_witness :
  qualityLevels (player (plugin_with (heights [720; 720; 1080])))
    = Some (heights [720; 720; 1080])
  ∧ _qualityButton (plugin_with (heights [720; 720; 1080])) = Some new_ConcreteButton
  ∧ ∃ levelItems,
      menu (onAddQualityLevel (props defaults)
              (plugin_with (heights [720; 720; 1080]))).1 = Some levelItems
      ∧ (1 ≤ length levelItems)%nat
      ∧ (length levelItems ≤ 4)%nat
      ∧ (NoDup ((λ level, getIdentifierFromLevel (props defaults) level false)
                  <$> heights [720; 720; 1080]) →
         length levelItems = 4%nat).
Proof.
  split; [reflexivity|]. split; [reflexivity|].
  destruct (@onAddQualityLevel_length no_numeric_strings (props defaults)
              (plugin_with (heights [720; 720; 1080])) (heights [720; 720; 1080])
              new_ConcreteButton eq_refl eq_refl)
    as (levelItems & Hmenu & [Hmin Hmax] & Hall).
  exists levelItems. split; [exact Hmenu|]. split; [exact Hmin|].
  split; [exact Hmax|exact Hall].
Defined.

Lemma onAddQualityLevel_completion_witness :
  is_Some (qualityLevels (player (plugin_with (heights [720; 1080]))))
  ∧ (onAddQualityLevel (props defaults) (plugin_with (heights [720; 1080]))).2
    = Ok VUndefined.
Proof.
  assert (is_Some (qualityLevels (player (plugin_with (heights [720; 1080])))))
    as Hsome by (eexists; reflexivity).
  split; [exact Hsome|].
  exact (proj1 (@onAddQualityLevel_completion no_numeric_strings (props defaults)
                  (plugin_with (heights [720; 1080]))) Hsome).
Defined.

Lemma buildLevelItems_order_independent_witness :
  Forall (λ v, ∃ n, v = VNum n)
    ((λ level, getIdentifierFromLevel (props defaults) level false)
       <$> heights [1080; 240; 720])
  ∧ (∀ v,
       v ∈ (λ level, getIdentifierFromLevel (props defaults) level false)
             <$> heights [1080; 240; 720]
       ↔ v ∈ (λ level, getIdentifierFromLevel (props defaults) level false)
               <$> heights [720; 240; 1080; 240])
  ∧ buildLevelItems (props defaults) (player_with []) (heights [1080; 240; 720])
    = buildLevelItems (props defaults) (player_with []) (heights [720; 240; 1080; 240]).
Proof.
  assert (Forall (λ v, ∃ n, v = VNum n)
            ((λ level, getIdentifierFromLevel (props defaults) level false)
               <$> heights [1080; 240; 720])) as Hnum.
  { repeat constructor; eexists; vm_compute; reflexivity. }
  assert (∀ v,
            v ∈ (λ level, getIdentifierFromLevel (props defaults) level false)
                  <$> heights [1080; 240; 720]
            ↔ v ∈ (λ level, getIdentifierFromLevel (props defaults) level false)
                    <$> heights [720; 240; 1080; 240]) as Hsame.
  { intros v.
    change (v ∈ [VNum 1080; VNum 240; VNum 720]
            ↔ v ∈ [VNum 720; VNum 240; VNum 1080; VNum 240]).
    rewrite !elem_of_cons, !elem_of_nil. tauto. }
  split; [exact Hnum|]. split; [exact Hsame|].
  exact (@buildLevelItems_order_independent no_numeric_strings (props defaults)
           (player_with []) (heights [1080; 240; 720]) (heights [720; 240; 1080; 240])
           Hnum Hsame).
Defined.

Lemma setQuality_completion_witness :
  (is_Some (qualityLevels (player (plugin_with (heights [480; 720]))))
   ∧ is_Some (_qualityButton (plugin_with (heights [480; 720]))))
  ∧ (setQuality (props defaults) (plugin_with (heights [480; 720])) (VNum 720)).2
    = Ok VUndefined.
Proof.
  assert (is_Some (qualityLevels (player (plugin_with (heights [480; 720]))))
          ∧ is_Some (_qualityButton (plugin_with (heights [480; 720])))) as Hactive.
  { split; eexists; reflexivity. }
  split; [exact Hactive|].
  exact (proj2 (proj1 (@setQuality_completion no_numeric_strings (props defaults)
                         (plugin_with (heights [480; 720])) (VNum 720))) Hactive).
Defined.

Lemma setQuality_last_choice_witness :
  ToString (get (props defaults) "identifyBy") ≠ "enabled"
  ∧ setQuality (props defaults)
      (setQuality (props defaults) (plugin_with (heights [480; 720])) (VNum 480)).1
      (VNum 720)
    = setQuality (props defaults) (plugin_with (heights [480; 720])) (VNum 720).
Proof.
  assert (ToString (get (props defaults) "identifyBy") ≠ "enabled") as Hfield.
  { vm_compute. discriminate. }
  split; [exact Hfield|].
  exact (@setQuality_last_choice no_numeric_strings (props defaults)
           (plugin_with (heights [480; 720])) (VNum 480) (VNum 720) Hfield).
Defined.

Lemma setQuality_keeps_menu_witness :
  ToString (get (props defaults) "identifyBy") ≠ "enabled"
  ∧ menu (onAddQualityLevel (props defaults)
            (setQuality (props defaults) (plugin_with (heights [480; 720]))
               (VNum 720)).1).1
    = menu (onAddQualityLevel (props defaults) (plugin_with (heights [480; 720]))).1.
Proof.
  assert (ToString (get (props defaults) "identifyBy") ≠ "enabled") as Hfield.
  { vm_compute. discriminate. }
  split; [exact Hfield|].
  exact (@setQuality_keeps_menu no_numeric_strings (props defaults)
           (plugin_with (heights [480; 720])) (VNum 720) Hfield).
Defined.

Lemma menu_choice_enables_a_level_witness :
  let this := plugin_with (heights [480; 720]) in
  let m := getQualityMenuItem
             {| label := VStr "720p"; value := VNum 720; selected := None |} in
  let levelItems :=
    [getQualityMenuItem {| label := VStr "480p"; value := VNum 480; selected := None |};
     m; auto_item (player this)] in
  qualityLevels (player this) = Some (heights [480; 720])
  ∧ _qualityButton this = Some new_ConcreteButton
  ∧ heights [480; 720] ≠ []
  ∧ menu (onAddQualityLevel (props defaults) this).1 = Some levelItems
  ∧ m ∈ levelItems
  ∧ (setQuality (props defaults) (onAddQualityLevel (props defaults) this).1
       (value (item m))).2 = Ok VUndefined
  ∧ ∃ quality,
      quality ∈ levels_of
        (setQuality (props defaults) (onAddQualityLevel (props defaults) this).1
           (value (item m))).1
      ∧ get quality "enabled" = VBool true.
Proof.
  intros this m levelItems.
  assert (heights [480; 720] ≠ []) as Hne by discriminate.
  assert (m ∈ levelItems) as Hm by (right; left).
  split; [reflexivity|]. split; [reflexivity|]. split; [exact Hne|].
  split; [reflexivity|]. split; [exact Hm|].
  exact (@menu_choice_enables_a_level no_numeric_strings (props defaults) this
           (heights [480; 720]) new_ConcreteButton levelItems m
           eq_refl eq_refl Hne eq_refl Hm).
Defined.

Lemma item_comparator_numbers_witness :
  let current := getQualityMenuItem
                   {| label := VStr "240p"; value := VNum 240; selected := None |} in
  let next := getQualityMenuItem
                {| label := VStr "720p"; value := VNum 720; selected := None |} in
  value (item current) = VNum 240
  ∧ value (item next) = VNum 720
  ∧ item_comparator current next
    = Ok (match 240 ?= 720 with Lt => -1 | Eq => 0 | Gt => 1 end)
  ∧ ∃ c, item_comparator current next = Ok c
       ∧ item_comparator next current = Ok (- c).
Proof.
  intros current next. split; [reflexivity|]. split; [reflexivity|].
  exact (@item_comparator_numbers no_numeric_strings current next 240 720
           eq_refl eq_refl).
Defined.

Lemma item_comparator_undefined_witness :
  let u := getQualityMenuItem
             {| label := VStr "undefinedp"; value := VUndefined; selected := None |} in
  let current := getQualityMenuItem
                   {| label := VStr "240p"; value := VNum 240; selected := None |} in
  let next := getQualityMenuItem
                {| label := VStr "720p"; value := VNum 720; selected := None |} in
  value (item u) = VUndefined
  ∧ value (item current) = VNum 240
  ∧ value (item next) = VNum 720
  ∧ 240 < 720
  ∧ item_comparator current u = Ok 0
  ∧ item_comparator u current = Ok 0
  ∧ item_comparator u next = Ok 0
  ∧ item_comparator current next = Ok (-1).
Proof.
  intros u current next.
  split; [reflexivity|]. split; [reflexivity|]. split; [reflexivity|].
  split; [reflexivity|].
  exact (@item_comparator_undefined no_numeric_strings u current next 240 720
           eq_refl eq_refl eq_refl eq_refl).
Defined.

Lemma constructor_frame_witness :
  "positionIndex" ≠ "parent"
  ∧ default ∅ (Some by_bitrate) !! "positionIndex" = None
  ∧ props (constructor defaults (player_with []) (Some by_bitrate)).1 !! "positionIndex"
    = props defaults !! "positionIndex".
Proof.
  assert ("positionIndex" ≠ "parent") as Hk by discriminate.
  split; [exact Hk|]. split; [reflexivity|].
  exact (proj1 (constructor_frame defaults (player_with []) (Some by_bitrate))
           "positionIndex" Hk eq_refl).
Defined.

Lemma constructor_gate_witness :
  (is_Some (qualityLevels (player_with (heights [480; 720])))
   ∧ hls (player_with (heights [480; 720])) = true)
  ∧ bound (plugin_with (heights [480; 720])) = true
  ∧ menu (plugin_with (heights [480; 720])) = Some []
  ∧ (onAddQualityLevel (props defaults) (plugin_with (heights [480; 720]))).2
    = Ok VUndefined
  ∧ ∃ real,
      menu (onAddQualityLevel (props defaults) (plugin_with (heights [480; 720]))).1
      = Some (real ++ [auto_item (player_with (heights [480; 720]))]).
Proof.
  assert (is_Some (qualityLevels (player_with (heights [480; 720])))
          ∧ hls (player_with (heights [480; 720])) = true) as Hgate.
  { split; [eexists|]; reflexivity. }
  split; [exact Hgate|].
  exact (proj1 (@constructor_gate no_numeric_strings defaults
                  (player_with (heights [480; 720])) None (props defaults)) Hgate).
Defined.

End FurtherInstances.
